(** * catalyst.utils.config: configuration loading, CLI overrides, environment
      snapshot and config dump

    A shallow embedding of [src/catalyst/utils/config.py].  Python values are
    an inductive type, exceptions are a result type, the [argparse.Namespace]
    objects live in a heap addressed by references, and everything the module
    obtains from the interpreter or from other libraries ([eval], the JSON
    and YAML codecs, [subprocess], the clock, [os.uname]) is a field of a
    [Host] record that the functions take as an argument. *)

From Stdlib Require Import ZArith String Ascii List Lia Bool.
From Corelib Require Import PrimFloat.
From Stdlib Require Import Uint63.
From stdpp Require Import base option list gmap strings sorting pretty.

Set Warnings "-register-all".

Local Open Scope string_scope.
Local Open Scope Z_scope.

(** ** Exceptions and results *)

(** A raised exception: the name of its class and its message. *)
Record exn := Exn { exn_class : string; exn_msg : string }.

Inductive result (A : Type) : Type :=
| Ok (a : A)
| Raise (e : exn).
Arguments Ok {A} a.
Arguments Raise {A} e.

(** ** Python values *)

(** [VStr] and [VBytes] both carry the UTF-8 bytes of the text; a [dict] is
    its list of items in insertion order. *)
Inductive value : Type :=
| VNone
| VBool (b : bool)
| VInt (z : Z)
| VFloat (f : float)
| VStr (s : string)
| VBytes (b : string)
| VList (l : list value)
| VDict (d : list (string * value)).

Abbreviation dict := (list (string * value)).

(** [v is None] *)
Definition is_none (v : value) : bool :=
  match v with VNone => true | _ => false end.

(** [v == ""] *)
Definition is_empty_str (v : value) : bool :=
  match v with VStr s => String.eqb s "" | _ => false end.

(** ** [dict] operations *)

(** [d.get(k)] *)
Fixpoint dict_get (d : dict) (k : string) : option value :=
  match d with
  | [] => None
  | (k', v) :: d' => if String.eqb k' k then Some v else dict_get d' k
  end.

(** [d[k] = v]: an existing key keeps its position, a new key goes last. *)
Fixpoint dict_set (d : dict) (k : string) (v : value) : dict :=
  match d with
  | [] => [(k, v)]
  | (k', v') :: d' =>
      if String.eqb k' k then (k, v) :: d' else (k', v') :: dict_set d' k v
  end.

(** [k in d] *)
Definition dict_mem (d : dict) (k : string) : bool :=
  match dict_get d k with Some _ => true | None => false end.

(** ** [str] methods used by the module *)

(** [s.split(sep)] for a one-character separator. *)
Fixpoint split_on (sep : ascii) (s : string) : list string :=
  match s with
  | EmptyString => [EmptyString]
  | String c s' =>
      if Ascii.eqb c sep then EmptyString :: split_on sep s'
      else match split_on sep s' with
           | [] => [String c EmptyString]
           | w :: ws => String c w :: ws
           end
  end.

(** [s.rsplit(sep, 1)]: [None] when [sep] does not occur (Python then returns
    the one-element list [[s]]), otherwise the text before and after the last
    occurrence. *)
Fixpoint rsplit1 (sep : ascii) (s : string) : option (string * string) :=
  match s with
  | EmptyString => None
  | String c s' =>
      match rsplit1 sep s' with
      | Some (a, b) => Some (String c a, b)
      | None => if Ascii.eqb c sep then Some (EmptyString, s') else None
      end
  end.

(** Dropping the leading characters that satisfy [p]. *)
Fixpoint lstrip_by (p : ascii -> bool) (s : string) : string :=
  match s with
  | EmptyString => EmptyString
  | String a s' => if p a then lstrip_by p s' else s
  end.

(** Dropping the trailing characters that satisfy [p]. *)
Fixpoint rstrip_by (p : ascii -> bool) (s : string) : string :=
  match s with
  | EmptyString => EmptyString
  | String a s' =>
      match rstrip_by p s' with
      | EmptyString => if p a then EmptyString else String a EmptyString
      | t => String a t
      end
  end.

(** [s.lstrip(c)] *)
Definition lstrip (c : ascii) (s : string) : string := lstrip_by (Ascii.eqb c) s.

(** [s.strip(c)] *)
Definition strip (c : ascii) (s : string) : string :=
  rstrip_by (Ascii.eqb c) (lstrip_by (Ascii.eqb c) s).

(** The bytes that [bytes.strip()] removes. *)
Definition is_bytes_space (a : ascii) : bool :=
  let n := nat_of_ascii a in
  (n =? 32)%nat || ((9 <=? n)%nat && (n <=? 13)%nat).

(** The ASCII characters that [str.split()] separates on. *)
Definition is_str_space (a : ascii) : bool :=
  let n := nat_of_ascii a in
  (n =? 32)%nat || ((9 <=? n)%nat && (n <=? 13)%nat)
  || ((28 <=? n)%nat && (n <=? 31)%nat).

(** [b.strip()] on bytes. *)
Definition strip_space (b : string) : string :=
  rstrip_by is_bytes_space (lstrip_by is_bytes_space b).

(** The number of bytes of the white-space character that starts [s], 0 when
    [s] does not start with one.  The characters are those of
    [str.isspace]: the ASCII ones and, in their UTF-8 encoding, U+0085,
    U+00A0, U+1680, U+2000 to U+200A, U+2028, U+2029, U+202F, U+205F and
    U+3000. *)
Definition space_length (s : string) : nat :=
  match s with
  | EmptyString => 0%nat
  | String a s1 =>
      if is_str_space a then 1%nat
      else
        let n := nat_of_ascii a in
        match s1 with
        | String b s2 =>
            let m := nat_of_ascii b in
            if (n =? 194)%nat then
              if (m =? 133)%nat || (m =? 160)%nat then 2%nat else 0%nat
            else
              match s2 with
              | String c _ =>
                  let k := nat_of_ascii c in
                  if ((n =? 225)%nat && (m =? 154)%nat && (k =? 128)%nat)
                     || ((n =? 226)%nat && (m =? 128)%nat
                         && (((128 <=? k)%nat && (k <=? 138)%nat)
                             || (k =? 168)%nat || (k =? 169)%nat
                             || (k =? 175)%nat))
                     || ((n =? 226)%nat && (m =? 129)%nat && (k =? 159)%nat)
                     || ((n =? 227)%nat && (m =? 128)%nat && (k =? 128)%nat)
                  then 3%nat else 0%nat
              | EmptyString => 0%nat
              end
        | EmptyString => 0%nat
        end
  end.

(** The word that starts at the head of [s] (empty when [s] starts with a
    separator) and the words after it; [skip] is the number of bytes of [s]
    that still belong to a separator already met. *)
Fixpoint words_from (skip : nat) (s : string) : string * list string :=
  match s with
  | EmptyString => (EmptyString, [])
  | String c s' =>
      match (match skip with O => space_length s | _ => skip end) with
      | O => let '(w, ws) := words_from 0%nat s' in (String c w, ws)
      | S k =>
          let '(w, ws) := words_from k s' in
          (EmptyString, match w with EmptyString => ws | _ => w :: ws end)
      end
  end.

(** [s.split()] on a text. *)
Definition split_space (s : string) : list string :=
  let '(w, ws) := words_from 0%nat s in
  match w with EmptyString => ws | _ => w :: ws end.

(** [s.replace("\n", "\n\n")] *)
Fixpoint double_newlines (s : string) : string :=
  match s with
  | EmptyString => EmptyString
  | String c s' =>
      if Ascii.eqb c "010"%char
      then String c (String c (double_newlines s'))
      else String c (double_newlines s')
  end.

(** [c in s] for a one-character [c]. *)
Fixpoint contains (c : ascii) (s : string) : bool :=
  match s with
  | EmptyString => false
  | String a s' => Ascii.eqb a c || contains c s'
  end.

Definition lower_ascii (a : ascii) : ascii :=
  let n := nat_of_ascii a in
  if (65 <=? n)%nat && (n <=? 90)%nat then ascii_of_nat (n + 32) else a.

(** [s.lower()]; on UTF-8 text only the ASCII letters can map to ASCII. *)
Fixpoint lower (s : string) : string :=
  match s with
  | EmptyString => EmptyString
  | String a s' => String (lower_ascii a) (lower s')
  end.

(** [s.endswith(suffix)] *)
Definition endswith (s suffix : string) : bool :=
  let n := String.length s in
  let m := String.length suffix in
  (m <=? n)%nat && String.eqb (substring (n - m) m s) suffix.

(** [sub in s] *)
Definition is_substring (sub s : string) : bool :=
  match String.index 0 sub s with Some _ => true | None => false end.

(** ** Exception classes raised by the interpreter on behalf of the module *)

Definition ValueError (msg : string) : exn := Exn "ValueError" msg.
Definition TypeError (msg : string) : exn := Exn "TypeError" msg.
Definition AttributeError (msg : string) : exn := Exn "AttributeError" msg.
Definition FileNotFoundError (msg : string) : exn := Exn "FileNotFoundError" msg.
Definition IsADirectoryError (msg : string) : exn := Exn "IsADirectoryError" msg.
Definition NotADirectoryError (msg : string) : exn := Exn "NotADirectoryError" msg.
Definition FileExistsError (msg : string) : exn := Exn "FileExistsError" msg.
Definition CalledProcessError (msg : string) : exn := Exn "CalledProcessError" msg.
Definition ConstructorError (msg : string) : exn := Exn "ConstructorError" msg.
Definition IndexError (msg : string) : exn := Exn "IndexError" msg.

Definition type_name (v : value) : string :=
  match v with
  | VNone => "NoneType"
  | VBool _ => "bool"
  | VInt _ => "int"
  | VFloat _ => "float"
  | VStr _ => "str"
  | VBytes _ => "bytes"
  | VList _ => "list"
  | VDict _ => "dict"
  end.

(** What [c[k] = v] raises when [c] is not a [dict] and [k] is a [str]. *)
Definition setitem_error (c : value) : exn :=
  match c with
  | VList _ => TypeError "list indices must be integers or slices, not str"
  | _ => TypeError ("'" ++ type_name c ++ "' object does not support item assignment")
  end.

(** What the loop body [if k not in c: c[k] = {}] followed by [c = c[k]]
    raises when [c] is not a [dict]. *)
Definition descend_error (k : string) (c : value) : exn :=
  match c with
  | VStr s =>
      if is_substring k s then TypeError "string indices must be integers"
      else setitem_error c
  | VList _ => TypeError "list indices must be integers or slices, not str"
  | VBytes _ => TypeError "a bytes-like object is required, not 'str'"
  | _ => TypeError ("argument of type '" ++ type_name c ++ "' is not iterable")
  end.

(** Unpacking a list into two names, [a, b = l]. *)
Definition unpack2 (l : list string) : result (string * string) :=
  match l with
  | [a; b] => Ok (a, b)
  | [] => Raise (ValueError "not enough values to unpack (expected 2, got 0)")
  | [_] => Raise (ValueError "not enough values to unpack (expected 2, got 1)")
  | _ => Raise (ValueError "too many values to unpack (expected 2)")
  end.

(** ** Documents *)

(** A parsed document, before its mappings are built: a scalar is the Python
    value the decoder makes of it, a mapping is the list of its pairs in the
    order of the text, repeated keys included. *)
Inductive document : Type :=
| Scalar (v : value)
| Sequence (items : list document)
| Mapping (pairs : list (string * document)).

(** The representation tree the YAML composer builds, aliases expanded.  The
    keys of a mapping are texts or the merge key [<<]; a scalar, and a
    collection with a tag of its own, is the Python value that the
    constructors of the library make of it. *)
Inductive yaml_key : Type :=
| Key (s : string)
| MergeKey.

Inductive yaml_node : Type :=
| ScalarNode (v : value)
| SequenceNode (items : list yaml_node)
| MappingNode (pairs : list (yaml_key * yaml_node)).

(** [OrderedDict(pairs)]: the pairs are inserted one after the other, so that
    a repeated key keeps its first place and takes its last value. *)
Definition OrderedDict (pairs : list (string * value)) : dict :=
  fold_left (fun d kv => dict_set d (fst kv) (snd kv)) pairs [].

(** The tree built from a document when every mapping is made by
    [OrderedDict] from its pairs: [object_pairs_hook=OrderedDict] for JSON,
    [construct_mapping] below for YAML. *)
Fixpoint construct (t : document) : value :=
  match t with
  | Scalar v => v
  | Sequence items => VList (map construct items)
  | Mapping pairs =>
      VDict (OrderedDict (map (fun kv => let '(k, x) := kv in (k, construct x))
                            pairs))
  end.

(** ** The world: heap, file system, evaluation log, summary sink *)

(** A file-system path as its components; [Path] below builds one from text. *)
Abbreviation path := (list string).

Inductive node : Type :=
| Dir
| File (content : string).

(** One [add_text] record of a [SummaryWriter]. *)
Record summary := Summary {
  sm_dir : path;
  sm_tag : string;
  sm_text : string;
  sm_step : Z
}.

(** References to [argparse.Namespace] objects are indices into the heap; a
    namespace is the finite map of its attributes. *)
Abbreviation loc := nat.
Abbreviation namespace := (gmap string value).

Record world := World {
  heap : list namespace;
  files : gmap path node;
  evaluated : list string;
  summaries : list summary
}.

Definition set_heap (f : list namespace -> list namespace) (w : world) : world :=
  World (f (heap w)) (files w) (evaluated w) (summaries w).
Definition set_files (f : gmap path node -> gmap path node) (w : world) : world :=
  World (heap w) (f (files w)) (evaluated w) (summaries w).
Definition log_eval (src : string) (w : world) : world :=
  World (heap w) (files w) (evaluated w ++ [src]) (summaries w).
(** The world [w'] that evaluated code left, with the record of [w] extended
    by the text that was evaluated. *)
Definition after_eval (src : string) (w w' : world) : world :=
  World (heap w') (files w') (evaluated w ++ [src]) (summaries w').
Definition log_summary (s : summary) (w : world) : world :=
  World (heap w) (files w) (evaluated w) (summaries w ++ [s]).

(** ** The state and exception monad *)

Definition M (A : Type) : Type := world -> result A * world.

Definition ret {A} (a : A) : M A := fun w => (Ok a, w).
Definition raise {A} (e : exn) : M A := fun w => (Raise e, w).
Definition bind {A B} (m : M A) (k : A -> M B) : M B :=
  fun w =>
    match m w with
    | (Ok a, w') => k a w'
    | (Raise e, w') => (Raise e, w')
    end.
Definition lift {A} (r : result A) : M A := fun w => (r, w).

Declare Scope py_scope.
Delimit Scope py_scope with py.
Notation "'do' x <- m ; k" := (bind m (fun x => k))
  (at level 10, x name, m at level 100, k at level 200) : py_scope.
Notation "'do' ' p <- m ; k" := (bind m (fun x => match x with p => k end))
  (at level 10, p pattern, m at level 100, k at level 200) : py_scope.
Notation "'run' m ; k" := (bind m (fun _ => k))
  (at level 10, m at level 100, k at level 200) : py_scope.
Local Open Scope py_scope.

(** ** The host: what the module obtains from outside itself *)

(** Broken-down local time, as [time.localtime()] gives it. *)
Record struct_time := StructTime {
  tm_year : nat; tm_mon : nat; tm_mday : nat;
  tm_hour : nat; tm_min : nat; tm_sec : nat
}.

(** The names bound in the frame of [parse_config_args] when line 163 or
    line 177 calls [eval], which the evaluated code can read: the three
    parameters, the token and the texts cut out of it, and in the branch of
    the names with a slash the list [arg_names]. *)
Record scope := Scope {
  sc_config : dict;
  sc_args : loc;
  sc_unknown_args : list string;
  sc_arg : string;
  sc_arg_name : string;
  sc_value : string;
  sc_value_content : string;
  sc_value_type : string;
  sc_arg_names : option (list string)
}.

(** What a call of [eval] leaves behind besides the world: the value or the
    exception, and the two mutable objects of the frame as the evaluated code
    left them, the dictionary [config] and the list [arg_names]. *)
Record outcome := Outcome {
  out_result : result value;
  out_config : dict;
  out_arg_names : option (list string)
}.

(** The outcome of an evaluation that changes no object of the frame. *)
Definition unchanged (sc : scope) (r : result value) : outcome :=
  Outcome r (sc_config sc) (sc_arg_names sc).

Record Host := {
  (** [eval(src)] in the frame of [parse_config_args].  The evaluated code
      reads the names of the frame and the whole world, the record of the
      texts evaluated before it included; it returns or raises, and it may
      change the namespace objects, those of the callers included, the
      files, the dictionary [config] and the list [arg_names].  It cannot
      rebind a name of the frame; the sequence [unknown_args] is taken to be
      immutable, and [arg_names] to hold texts. *)
  py_eval : scope -> string -> world -> outcome * world;
  (** The JSON decoder on the text of a file: the document it has parsed
      when it hands the pairs of the objects to [object_pairs_hook]. *)
  json_parse : string -> result document;
  (** The YAML parser and composer on a stream: the representation tree of
      its single document, [None] for an empty stream. *)
  yaml_compose : string -> result (option yaml_node);
  (** The text [safitty.save] writes for a [.json] path, with the exception
      that interrupted the writing, if any. *)
  safitty_dump : value -> string * option exn;
  (** [json.dumps(obj, indent=2)] *)
  json_dumps : value -> result string;
  (** [bytes.decode("UTF-8")] *)
  decode_utf8 : string -> result string;
  (** [subprocess.check_output(cmd, stderr=devnull)] *)
  check_output : list string -> result string;
  sys_version : string;
  pip_version : string;
  environ : string -> option string;
  localtime : struct_time;
  (** [os.uname()]: sysname, nodename, release, version, machine. *)
  uname : string * string * string * string * string
}.

(** ** [parse_config_args] *)

(** [eval(src)]; the call is recorded in the world, after whatever the
    evaluated code has done to it. *)
Definition eval (h : Host) (sc : scope) (src : string)
  : M (value * dict * option (list string)) :=
  fun w =>
    let '(out, w') := py_eval h sc src w in
    match out_result out with
    | Ok v => (Ok (v, out_config out, out_arg_names out), after_eval src w w')
    | Raise e => (Raise e, after_eval src w w')
    end.

(** The attributes of the namespace object at [l].  A reference held by a
    Python program always points to an object; an address outside the heap
    is answered with an exception so that the functions are total. *)
Definition getattrs (l : loc) : M namespace :=
  fun w =>
    match heap w !! l with
    | Some ns => (Ok ns, w)
    | None => (Raise (Exn "ReferenceError" "no object at this address"), w)
    end.

(** [setattr(l, k, v)] *)
Definition setattr (l : loc) (k : string) (v : value) : M unit :=
  do ns <- getattrs l;
  fun w => (Ok tt, set_heap (fun hp => <[l := <[k := v]> ns]> hp) w).

(** The navigation of lines 165-172: walk [arg_names] but the last from
    [config_], creating an empty [dict] where a name is absent, and bind the
    last name to [arg_value]; the list is empty only if evaluated code has
    emptied it, and [arg_names[-1]] then fails.  The dictionaries are updated
    in place in the source; here the updated tree is rebuilt on the way
    back. *)
Fixpoint set_path (config_ : dict) (arg_names : list string) (arg_value : value)
  : result dict :=
  match arg_names with
  | [] => Raise (IndexError "list index out of range")
  | [last] => Ok (dict_set config_ last arg_value)
  | arg_name :: rest =>
      let child :=
        match dict_get config_ arg_name with
        | Some c => c
        | None => VDict []
        end in
      match child with
      | VDict d =>
          match set_path d rest arg_value with
          | Ok d' => Ok (dict_set config_ arg_name (VDict d'))
          | Raise e => Raise e
          end
      | c =>
          Raise (match rest with
                 | k :: _ :: _ => descend_error k c
                 | _ => setitem_error c
                 end)
      end
  end.

(** ["%s(%s)" % (value_type, value_content)] *)
Definition format_call (value_type value_content : string) : string :=
  value_type ++ "(" ++ value_content ++ ")".

(** The body of the loop over [unknown_args] (lines 150-178). *)
Definition apply_override (h : Host) (args : loc) (unknown_args : list string)
  (config : dict) (arg : string) : M dict :=
  do ' (arg_name, value) <- lift (unpack2 (split_on "="%char arg));
  let arg_name := strip "/"%char (lstrip "-"%char arg_name) in
  do ' (value_content, value_type) <-
    lift (match rsplit1 ":"%char value with
          | Some (a, b) => unpack2 [a; b]
          | None => unpack2 [value]
          end);
  let sc :=
    Scope config args unknown_args arg arg_name value value_content value_type in
  if contains "/"%char arg_name then
    let arg_names := split_on "/"%char arg_name in
    do ' (arg_value, config, names) <-
      (if String.eqb value_type "str" then
         let arg_value := VStr value_content in
         if String.eqb (lower value_content) "none"
         then ret (VNone, config, Some arg_names)
         else ret (arg_value, config, Some arg_names)
       else eval h (sc (Some arg_names)) (format_call value_type value_content));
    let arg_names := match names with Some l => l | None => arg_names end in
    lift (set_path config arg_names arg_value)
  else
    do ' (arg_value, config, _) <-
      (if String.eqb value_type "str" then ret (VStr value_content, config, None)
       else eval h (sc None) (format_call value_type value_content));
    run setattr args arg_name arg_value;
    ret config.

(** [for arg in unknown_args: ...]: [todo] is the part of [unknown_args] that
    is still to be read. *)
Fixpoint apply_overrides (h : Host) (args : loc) (unknown_args : list string)
  (config : dict) (todo : list string) : M dict :=
  match todo with
  | [] => ret config
  | arg :: rest =>
      do config' <- apply_override h args unknown_args config arg;
      apply_overrides h args unknown_args config' rest
  end.

(** The order of [sorted(ns.__dict__.items())]: by attribute name. *)
Definition item_le (x y : string * value) : Prop :=
  Is_true (String.leb (fst x) (fst y)).

#[global] Instance item_le_dec (x y : string * value) : Decision (item_le x y).
Proof. unfold item_le. apply _. Defined.

(** [args._get_kwargs()], which argparse (Python 3.6 to 3.8) defines as
    [sorted(self.__dict__.items())]. *)
Definition _get_kwargs (ns : namespace) : list (string * value) :=
  merge_sort item_le (map_to_list ns).

(** [key in ["logdir", "baselogdir"]] *)
Definition is_logdir_key (key : string) : bool :=
  String.eqb key "logdir" || String.eqb key "baselogdir".

(** The loop of lines 184-188 over the items of [args]. *)
Fixpoint store_args (items : list (string * value)) (config : dict)
  : result dict :=
  match items with
  | [] => Ok config
  | (key, value) :: rest =>
      if is_none value then store_args rest config
      else if is_logdir_key key && is_empty_str value then store_args rest config
      else
        match dict_get config "args" with
        | Some (VDict a) =>
            store_args rest
              (dict_set config "args" (VDict (dict_set a key value)))
        | Some c => Raise (setitem_error c)
        | None => Raise (Exn "KeyError" "'args'")
        end
  end.

(** Lines 180-182: [config.get("args")] is [None] both when the key is absent
    and when it is bound to [None]. *)
Definition ensure_args (config : dict) : dict :=
  match dict_get config "args" with
  | None | Some VNone => dict_set config "args" (VDict [])
  | Some _ => config
  end.

Definition parse_config_args (h : Host) (config : dict) (args : loc)
  (unknown_args : list string) : M (dict * loc) :=
  do config <- apply_overrides h args unknown_args config unknown_args;
  let config := ensure_args config in
  do ns <- getattrs args;
  do config <- lift (store_args (_get_kwargs ns) config);
  ret (config, args).

(** ** [merge_dicts] *)

(** Modelled from the spec: [catalyst.utils.misc.merge_dicts], which this
    module imports and whose source is not part of it.  Section 4.2: for every
    key of [override], if it is absent in [base] insert it; if it is present in
    both and both values are trees, merge them recursively; otherwise overwrite
    with the value of [override].  Keys present only in [base] are kept
    unchanged, and neither input is modified.  The recursion is on the right
    tree, given as a value so that it descends into the values of its items. *)
Fixpoint merge_tree (base : dict) (override : value) {struct override} : dict :=
  match override with
  | VDict items =>
      (fix go (base : dict) (items : dict) {struct items} : dict :=
         match items with
         | [] => base
         | (k, v) :: rest =>
             let merged :=
               match dict_get base k, v with
               | Some (VDict a), VDict _ => VDict (merge_tree a v)
               | _, _ => v
               end in
             go (dict_set base k merged) rest
         end) base items
  | _ => base
  end.

(** Modelled from the spec: [merge(base, override)] of section 4.2, on two
    trees. *)
Definition merge_dicts (base override : dict) : dict :=
  merge_tree base (VDict override).

(** ** [load_ordered_yaml] *)

(** [node.id] *)
Definition node_id (node : yaml_node) : string :=
  match node with
  | ScalarNode _ => "scalar"
  | SequenceNode _ => "sequence"
  | MappingNode _ => "mapping"
  end.

(** [loader.flatten_mapping(node)], the first line of [construct_mapping]
    (line 37): the pairs under a merge key are removed, and the pairs of the
    mappings they name are put before the others, those of a list of
    mappings last mapping first.  The library flattens a mapping when it is
    about to construct it; here the whole tree is flattened at once, which
    builds the same tree since constructing a node changes no other. *)
Fixpoint flatten_mapping (node : yaml_node) : result document :=
  match node with
  | ScalarNode v => Ok (Scalar v)
  | SequenceNode items =>
      match
        (fix each (l : list yaml_node) : result (list document) :=
           match l with
           | [] => Ok []
           | n :: l' =>
               match flatten_mapping n with
               | Raise e => Raise e
               | Ok d =>
                   match each l' with
                   | Raise e => Raise e
                   | Ok ds => Ok (d :: ds)
                   end
               end
           end) items
      with
      | Raise e => Raise e
      | Ok ds => Ok (Sequence ds)
      end
  | MappingNode pairs =>
      match
        (fix go (l : list (yaml_key * yaml_node))
           : result (list (string * document) * list (string * document)) :=
           match l with
           | [] => Ok ([], [])
           | (Key k, value_node) :: l' =>
               match flatten_mapping value_node with
               | Raise e => Raise e
               | Ok d =>
                   match go l' with
                   | Raise e => Raise e
                   | Ok (merge, own) => Ok (merge, (k, d) :: own)
                   end
               end
           | (MergeKey, value_node) :: l' =>
               match
                 (match value_node with
                  | MappingNode _ =>
                      match flatten_mapping value_node with
                      | Raise e => Raise e
                      | Ok (Mapping ps) => Ok ps
                      | Ok _ => Ok []
                      end
                  | SequenceNode subnodes =>
                      (fix sub (l : list yaml_node)
                         : result (list (string * document)) :=
                         match l with
                         | [] => Ok []
                         | subnode :: l' =>
                             match
                               (match subnode with
                                | MappingNode _ =>
                                    match flatten_mapping subnode with
                                    | Raise e => Raise e
                                    | Ok (Mapping ps) => Ok ps
                                    | Ok _ => Ok []
                                    end
                                | _ =>
                                    Raise (ConstructorError
                                             ("expected a mapping for merging, but found "
                                              ++ node_id subnode))
                                end)
                             with
                             | Raise e => Raise e
                             | Ok ps =>
                                 match sub l' with
                                 | Raise e => Raise e
                                 | Ok later => Ok (later ++ ps)%list
                                 end
                             end
                         end) subnodes
                  | ScalarNode _ =>
                      Raise (ConstructorError
                               ("expected a mapping or list of mappings for merging, but found "
                                ++ node_id value_node))
                  end)
               with
               | Raise e => Raise e
               | Ok ps =>
                   match go l' with
                   | Raise e => Raise e
                   | Ok (merge, own) => Ok ((ps ++ merge)%list, own)
                   end
               end
           end) pairs
      with
      | Raise e => Raise e
      | Ok (merge, own) => Ok (Mapping (merge ++ own)%list)
      end
  end.

(** [construct_mapping] (lines 36-38), which lines 40-42 register for the
    tag of the mappings: the node is flattened, and the mapping is
    [object_pairs_hook(loader.construct_pairs(node))], with
    [object_pairs_hook=OrderedDict]. *)
Definition construct_mapping (node : yaml_node) : result value :=
  match flatten_mapping node with
  | Ok d => Ok (construct d)
  | Raise e => Raise e
  end.

(** [yaml.load(stream, OrderedLoader)]: the stream is composed into a tree,
    which is constructed with [construct_mapping] at its mappings; an empty
    stream gives [None]. *)
Definition load_ordered_yaml (h : Host) (stream : string) : result value :=
  match yaml_compose h stream with
  | Raise e => Raise e
  | Ok None => Ok VNone
  | Ok (Some node) => construct_mapping node
  end.

(** [json.load(fin, object_pairs_hook=OrderedDict)] on the text of a file. *)
Definition json_load (h : Host) (text : string) : result value :=
  match json_parse h text with
  | Ok t => Ok (construct t)
  | Raise e => Raise e
  end.

(** ** Paths and files *)

(** The components of a path given as text: empty components and [.] are
    dropped, and an absolute path starts with the component [/].  The model
    has no symbolic links and does not interpret [..]. *)
Definition Path (s : string) : path :=
  let parts :=
    List.filter (fun c => negb (String.eqb c "") && negb (String.eqb c "."))
      (split_on "/"%char s) in
  match s with
  | String "/"%char _ => "/" :: parts
  | _ => parts
  end.

(** [str(p)] for messages. *)
Definition path_text (p : path) : string :=
  match p with
  | "/" :: rest => "/" ++ String.concat "/" rest
  | _ => String.concat "/" p
  end.

(** The current directory and the root. *)
Definition is_root (p : path) : bool :=
  bool_decide (p = []) || bool_decide (p = ["/"]).

(** The node at [p]; the current directory and the root always exist. *)
Definition lookup_node (fs : gmap path node) (p : path) : option node :=
  if is_root p then Some Dir else fs !! p.

(** [q] is a regular file. *)
Definition is_file (fs : gmap path node) (q : path) : bool :=
  match lookup_node fs q with Some (File _) => true | _ => false end.

(** Some proper prefix of [p] is a regular file, so that [p] cannot be
    reached. *)
Definition blocked (fs : gmap path node) (p : path) : bool :=
  existsb (fun n => is_file fs (take n p)) (seq 0 (List.length p)).

(** Reading the whole of the file at [p], once [open] has reached it; [text]
    is the path as the caller wrote it, for the message. *)
Definition read_file (text : string) (p : path) : M string :=
  fun w =>
    match lookup_node (files w) p with
    | Some (File content) => (Ok content, w)
    | Some Dir =>
        (Raise (IsADirectoryError ("[Errno 21] Is a directory: '" ++ text ++ "'")), w)
    | None =>
        if blocked (files w) p then
          (Raise (NotADirectoryError
                    ("[Errno 20] Not a directory: '" ++ text ++ "'")), w)
        else
          (Raise (FileNotFoundError
                    ("[Errno 2] No such file or directory: '" ++ text ++ "'")), w)
    end.

(** A component that names an entry of a directory. *)
Definition is_entry_name (c : string) : bool :=
  negb (String.eqb c "" || String.eqb c "." || String.eqb c "..").

(** The place reached from [cur] by one component of a path given as text:
    an empty component and [.] stay, [..] goes to the parent (the root is its
    own parent, and the parent of the current directory is written [..]),
    a name goes to the entry of that name. *)
Definition step (cur : path) (c : string) : path :=
  if String.eqb c "" || String.eqb c "." then cur
  else if String.eqb c ".." then
    if bool_decide (cur = ["/"]) then cur
    else match List.last cur ".." with
         | ".." => (cur ++ [".."])%list
         | _ => removelast cur
         end
  else (cur ++ [c])%list.

(** The walk of the operating system along the components of a path given as
    text: a component is looked up in a directory only, so that a regular
    file followed by anything, a final slash included, is an error. *)
Fixpoint walk (fs : gmap path node) (text : string) (cur : path)
  (parts : list string) : result path :=
  match parts with
  | [] => Ok cur
  | c :: rest =>
      match lookup_node fs cur with
      | Some (File _) =>
          Raise (NotADirectoryError
                   ("[Errno 20] Not a directory: '" ++ text ++ "'"))
      | Some Dir => walk fs text (step cur c) rest
      | None =>
          if is_entry_name c then walk fs text (step cur c) rest
          else Raise (FileNotFoundError
                        ("[Errno 2] No such file or directory: '" ++ text ++ "'"))
      end
  end.

(** [open(text, "r")] followed by reading the whole file: the text is walked
    as it is written, from the root when it starts with a slash and from the
    current directory otherwise. *)
Definition open_read (text : string) : M string :=
  fun w =>
    match text with
    | EmptyString =>
        (Raise (FileNotFoundError "[Errno 2] No such file or directory: ''"), w)
    | String c _ =>
        match walk (files w) text (if Ascii.eqb c "/" then ["/"] else [])
                (split_on "/"%char text) with
        | Ok p => read_file text p w
        | Raise e => (Raise e, w)
        end
    end.

(** ** [parse_args_uargs] *)

(** [copy.deepcopy(args)]: a new namespace object with the same attributes.
    Attribute values are immutable in this model (no line of the module
    updates one in place), so copying them is the identity. *)
Definition deepcopy (args : loc) : M loc :=
  do ns <- getattrs args;
  fun w => (Ok (List.length (heap w)), set_heap (fun hp => (hp ++ [ns])%list) w).

(** [getattr(l, k)], raising when the attribute is missing. *)
Definition getattr (l : loc) (k : string) : M value :=
  do ns <- getattrs l;
  match ns !! k with
  | Some v => ret v
  | None =>
      raise (AttributeError ("'Namespace' object has no attribute '" ++ k ++ "'"))
  end.

(** [getattr(l, k, None)], on the attributes of the object itself: the names
    that the class [Namespace] defines are not attributes of the model. *)
Definition getattr_default (l : loc) (k : string) : M value :=
  do ns <- getattrs l;
  ret (match ns !! k with Some v => v | None => VNone end).

(** The items a [for] loop over [v] visits (a text is visited byte by byte,
    which is character by character for ASCII). *)
Definition iterate (v : value) : result (list value) :=
  match v with
  | VList l => Ok l
  | VStr s => Ok (map (fun c => VStr (String c EmptyString)) (list_ascii_of_string s))
  | VBytes b => Ok (map (fun c => VInt (Z.of_nat (nat_of_ascii c))) (list_ascii_of_string b))
  | VDict d => Ok (map (fun kv => VStr (fst kv)) d)
  | c => Raise (TypeError ("'" ++ type_name c ++ "' object is not iterable"))
  end.

(** Lines 209-215 for one [config_path]: open the file, then choose the
    parser by the end of the path.  A path that is an [int] names a file
    descriptor; the model takes it to be open, so that the failure is the one
    of [config_path.endswith]. *)
Definition load_config (h : Host) (config_path : value) : M value :=
  match config_path with
  | VStr p =>
      do content <- open_read p;
      if endswith p "json" then lift (json_load h content)
      else if endswith p "yml" then lift (load_ordered_yaml h content)
      else raise (Exn "Exception" "Unknown file format")
  | VBytes p =>
      do content <- open_read p;
      raise (TypeError
               "endswith first arg must be bytes or a tuple of bytes, not str")
  | VInt _ | VBool _ =>
      raise (AttributeError
               ("'" ++ type_name config_path ++ "' object has no attribute 'endswith'"))
  | VFloat _ => raise (TypeError "integer argument expected, got float")
  | c =>
      raise (TypeError
               ("expected str, bytes or os.PathLike object, not " ++ type_name c))
  end.

(** [for config_path in args_.configs: ...] (lines 208-216).  [merge_dicts]
    is specified on trees; a document that is not a mapping has no [items]
    to merge. *)
Fixpoint load_configs (h : Host) (config : dict) (paths : list value) : M dict :=
  match paths with
  | [] => ret config
  | config_path :: rest =>
      do config_ <- load_config h config_path;
      match config_ with
      | VDict d => load_configs h (merge_dicts config d) rest
      | c =>
          raise (AttributeError
                   ("'" ++ type_name c ++ "' object has no attribute 'items'"))
      end
  end.

(** The loop of lines 225-230 over the items of [config["args"]]. *)
Fixpoint merge_back (args_ : loc) (items : list (string * value)) : M unit :=
  match items with
  | [] => ret tt
  | (key, value) :: rest =>
      do arg_value <- getattr_default args_ key;
      let arg_value :=
        if is_none arg_value || (is_logdir_key key && is_empty_str arg_value)
        then value else arg_value in
      run setattr args_ key arg_value;
      merge_back args_ rest
  end.

Definition parse_args_uargs (h : Host) (args : loc) (unknown_args : list string)
  : M (loc * dict) :=
  do args_ <- deepcopy args;
  do configs <- getattr args_ "configs";
  do paths <- lift (iterate configs);
  do config <- load_configs h [] paths;
  do ' (config, args_) <- parse_config_args h config args_ unknown_args;
  run (match dict_get config "args" with
       | None | Some VNone => ret tt
       | Some (VDict config_args) => merge_back args_ config_args
       | Some c =>
           raise (AttributeError
                    ("'" ++ type_name c ++ "' object has no attribute 'items'"))
       end);
  ret (args_, config).

(** ** [get_environment_vars] *)

Definition digit (n : nat) : ascii := ascii_of_nat (48 + n mod 10).

(** A number as two decimal digits, as [%y], [%m], [%d], [%H], [%M] and [%S]
    print it. *)
Definition two_digits (n : nat) : string :=
  String (digit (n / 10)) (String (digit n) EmptyString).

(** [time.strftime("%y%m%d.%H:%M:%S")] *)
Definition strftime (t : struct_time) : string :=
  two_digits (tm_year t mod 100) ++ two_digits (tm_mon t)
  ++ two_digits (tm_mday t) ++ "." ++ two_digits (tm_hour t) ++ ":"
  ++ two_digits (tm_min t) ++ ":" ++ two_digits (tm_sec t).

(** [os.environ.get(k, default)] *)
Definition environ_get (h : Host) (k default : string) : string :=
  match environ h k with Some v => v | None => default end.

(** [_decode_dict]: the values of type [bytes] are decoded, the others kept. *)
Fixpoint _decode_dict (h : Host) (dictionary : dict) : result dict :=
  match dictionary with
  | [] => Ok []
  | (k, v) :: rest =>
      match (match v with
             | VBytes b =>
                 match decode_utf8 h b with
                 | Ok s => Ok (VStr s)
                 | Raise e => Raise e
                 end
             | _ => Ok v
             end) with
      | Raise e => Raise e
      | Ok v' =>
          match _decode_dict h rest with
          | Ok rest' => Ok ((k, v') :: rest')
          | Raise e => Raise e
          end
      end
  end.

(** [try: body except cls: handler] *)
Definition try_except {A} (body : M A) (cls : string) (handler : M A) : M A :=
  fun w =>
    match body w with
    | (Raise e, w') =>
        if String.eqb (exn_class e) cls then handler w' else (Raise e, w')
    | r => r
    end.

Definition get_environment_vars (h : Host) : M dict :=
  let '(sysname, nodename, release, version, machine) := uname h in
  let result : dict :=
    [ ("python_version", VStr (sys_version h));
      ("conda_environment", VStr (environ_get h "CONDA_DEFAULT_ENV" ""));
      ("pip", VStr (pip_version h));
      ("creation_time", VStr (strftime (localtime h)));
      ("sysname", VStr sysname);
      ("nodename", VStr nodename);
      ("release", VStr release);
      ("version", VStr version);
      ("architecture", VStr machine);
      ("user", VStr (environ_get h "USER" ""));
      ("path", VStr (environ_get h "PWD" "")) ] in
  do result <-
    try_except
      (do out <- lift (check_output h ["git"; "rev-parse"; "--abbrev-ref"; "HEAD"]);
       do git_branch <- lift (decode_utf8 h (strip_space out));
       do git_local_commit <- lift (check_output h ["git"; "rev-parse"; "HEAD"]);
       do git_origin_commit <-
         lift (check_output h (split_space ("git rev-parse origin/" ++ git_branch)));
       let git : dict :=
         [ ("branch", VStr git_branch);
           ("local_commit", VBytes git_local_commit);
           ("origin_commit", VBytes git_origin_commit) ] in
       do git' <- lift (_decode_dict h git);
       ret (dict_set result "git" (VDict git')))
      "CalledProcessError"
      (ret result);
  lift (_decode_dict h result).

(** ** [dump_config] *)

(** [p.parent] *)
Definition parent (p : path) : path := removelast p.

(** [p.name] *)
Definition name (p : path) : string :=
  if is_root p then "" else List.last p "".

(** [p / child] for a single component. *)
Definition joinpath (p : path) (child : string) : path :=
  if String.eqb child "" then p else (p ++ [child])%list.

(** [p.mkdir(exist_ok=True, parents=True)], from the first component down:
    [seen] is the part of the path already known to be a directory. *)
Fixpoint mkdir_from (fs : gmap path node) (seen todo : path)
  : result (gmap path node) :=
  match todo with
  | [] => Ok fs
  | c :: rest =>
      let p := (seen ++ [c])%list in
      match lookup_node fs p with
      | Some Dir => mkdir_from fs p rest
      | Some (File _) =>
          Raise (match rest with
                 | [] => FileExistsError
                           ("[Errno 17] File exists: '" ++ path_text p ++ "'")
                 | _ => NotADirectoryError
                          ("[Errno 20] Not a directory: '" ++ path_text p ++ "'")
                 end)
      | None => mkdir_from (<[p := Dir]> fs) p rest
      end
  end.

Definition mkdir (p : path) : M unit :=
  fun w =>
    match mkdir_from (files w) [] p with
    | Ok fs => (Ok tt, set_files (fun _ => fs) w)
    | Raise e => (Raise e, w)
    end.

(** [open(p, "w")] and a write of [content]. *)
Definition write_file (p : path) (content : string) : M unit :=
  fun w =>
    match lookup_node (files w) p with
    | Some Dir =>
        (Raise (IsADirectoryError
                  ("[Errno 21] Is a directory: '" ++ path_text p ++ "'")), w)
    | _ =>
        match lookup_node (files w) (parent p) with
        | Some Dir => (Ok tt, set_files (fun fs => <[p := File content]> fs) w)
        | Some (File _) =>
            (Raise (NotADirectoryError
                      ("[Errno 20] Not a directory: '" ++ path_text p ++ "'")), w)
        | None =>
            (Raise (FileNotFoundError
                      ("[Errno 2] No such file or directory: '"
                       ++ path_text p ++ "'")), w)
        end
    end.

(** [safitty.save(obj, p)] for a path that ends in [.json]: the file is
    opened for writing, then the document is written into it. *)
Definition safitty_save (h : Host) (obj : value) (p : path) : M unit :=
  let '(text, failure) := safitty_dump h obj in
  run write_file p text;
  match failure with
  | Some e => raise e
  | None => ret tt
  end.

(** [shutil.copyfile(src, dst)] *)
Definition copyfile (src dst : path) : M unit :=
  if decide (src = dst) then
    raise (Exn "SameFileError"
             ("'" ++ path_text src ++ "' and '" ++ path_text dst
              ++ "' are the same file"))
  else
    do content <- read_file (path_text src) src;
    write_file dst content.

(** [for path in configs_path: ...] (lines 134-137) *)
Fixpoint copy_configs (config_dir : path) (configs_path : list path) : M unit :=
  match configs_path with
  | [] => ret tt
  | p :: rest =>
      let outpath := joinpath config_dir (name p) in
      run copyfile p outpath;
      copy_configs config_dir rest
  end.

(** [writer.add_text(tag, text, step)] on the writer opened on [dir]. *)
Definition add_text (dir : path) (tag text : string) (step : Z) : M unit :=
  fun w => (Ok tt, log_summary (Summary dir tag text step) w).

Definition dump_config (h : Host) (experiment_config : dict) (logdir : string)
  (configs_path : option (list value)) : M unit :=
  let configs_path := match configs_path with Some l => l | None => [] end in
  let configs_path :=
    omap (fun v => match v with VStr s => Some (Path s) | _ => None end)
      configs_path in
  let config_dir := joinpath (Path logdir) "configs" in
  run mkdir config_dir;
  do environment <- get_environment_vars h;
  run safitty_save h (VDict experiment_config) (joinpath config_dir "_config.json");
  run safitty_save h (VDict environment) (joinpath config_dir "_environment.json");
  run copy_configs config_dir configs_path;
  do config_str <- lift (json_dumps h (VDict experiment_config));
  let config_str := double_newlines config_str in
  do environment_str <- lift (json_dumps h (VDict environment));
  let environment_str := double_newlines environment_str in
  run add_text config_dir "config" config_str 0;
  add_text config_dir "environment" environment_str 0.

(** ** Reading a tree along a path *)

(** [config[n1][n2]...[nk]], to state what [set_path] stores. *)
Fixpoint get_path (config : dict) (arg_names : list string) : option value :=
  match arg_names with
  | [] => None
  | [last] => dict_get config last
  | arg_name :: rest =>
      match dict_get config arg_name with
      | Some (VDict d) => get_path d rest
      | _ => None
      end
  end.

(** The test of line 227-228 on the value [getattr(args_, key, None)] finds:
    the attribute counts as unset when it is missing or [None], and for the
    two log directory fields also when it is the empty text. *)
Definition unset (key : string) (current : option value) : bool :=
  match current with
  | None => true
  | Some c => is_none c || (is_logdir_key key && is_empty_str c)
  end.

(** The test of lines 185-187: the attribute is copied into [config["args"]]. *)
Definition stored (key : string) (v : value) : bool :=
  negb (is_none v) && negb (is_logdir_key key && is_empty_str v).

(** [isinstance(v, dict)] *)
Definition is_dict (v : value) : bool :=
  match v with VDict _ => true | _ => false end.


(** The tree written like the document: every mapping holds the pairs of the
    document, in the order of the document. *)
Fixpoint literal (t : document) : value :=
  match t with
  | Scalar v => v
  | Sequence items => VList (map literal items)
  | Mapping pairs =>
      VDict (map (fun kv => let '(k, x) := kv in (k, literal x)) pairs)
  end.

(** No mapping of the document repeats a key. *)
Fixpoint distinct_keys (t : document) : bool :=
  match t with
  | Scalar _ => true
  | Sequence items => forallb distinct_keys items
  | Mapping pairs =>
      bool_decide (NoDup (map fst pairs))
      && forallb (fun kv => let '(_, x) := kv in distinct_keys x) pairs
  end.

(** No mapping of the tree has a merge key. *)
Fixpoint merge_free (node : yaml_node) : bool :=
  match node with
  | ScalarNode _ => true
  | SequenceNode items => forallb merge_free items
  | MappingNode pairs =>
      forallb (fun kv =>
                 let '(k, x) := kv in
                 match k with Key _ => merge_free x | MergeKey => false end)
        pairs
  end.

(** The document of a tree, its pairs in the order of the tree, the ones
    under a merge key apart. *)
Fixpoint unmerged (node : yaml_node) : document :=
  match node with
  | ScalarNode v => Scalar v
  | SequenceNode items => Sequence (map unmerged items)
  | MappingNode pairs =>
      Mapping
        (omap (fun kv =>
                 let '(k, x) := kv in
                 match k with
                 | Key s => Some (s, unmerged x)
                 | MergeKey => None
                 end) pairs)
  end.

(** Lines 210-215: the parser is chosen by the end of the path. *)
Definition parse_by_suffix (h : Host) (config_path content : string)
  : result value :=
  if endswith config_path "json" then json_load h content
  else if endswith config_path "yml" then load_ordered_yaml h content
  else Raise (Exn "Exception" "Unknown file format").




(** The token reaches [eval]: it has one [=], its value has a [:], and the
    text after the last [:] is not [str]. *)
Definition is_evaluated (arg : string) : bool :=
  match unpack2 (split_on "="%char arg) with
  | Ok (_, value) =>
      match rsplit1 ":"%char value with
      | Some (_, value_type) => negb (String.eqb value_type "str")
      | None => false
      end
  | Raise _ => false
  end.



(** The frame at the call of [eval] for the token [arg], cut into [name],
    [value], [content] and [tag]. *)
Definition token_scope (config : dict) (args : loc) (unknown_args : list string)
  (arg name value content tag : string) : scope :=
  let arg_name := strip "/"%char (lstrip "-"%char name) in
  Scope config args unknown_args arg arg_name value content tag
    (if contains "/"%char arg_name then Some (split_on "/"%char arg_name)
     else None).


(** A computation reads the files only: it changes no world, and its outcome
    is the same in two worlds that hold the same files. *)
Definition files_only {A} (m : M A) : Prop :=
  forall w, snd (m w) = w
            /\ forall w2, files w2 = files w -> fst (m w2) = fst (m w).

(** ** A sample host

    A small interpreter, codec and machine on which the statements below are
    run.  The interpreter reads call expressions [f(literal)] in a scope that
    binds [int], [float] and [bool] only; the codec prints the JSON text of
    [json.dumps(v, indent=2)] for trees of [None], booleans, integers and plain
    ASCII text, and reads back the documents it is given. *)

Definition digit_value (a : ascii) : option Z :=
  let n := nat_of_ascii a in
  if (48 <=? n)%nat && (n <=? 57)%nat then Some (Z.of_nat (n - 48)) else None.

Fixpoint parse_digits (s : string) (acc : Z) : option Z :=
  match s with
  | EmptyString => Some acc
  | String c s' =>
      match digit_value c with
      | Some d => parse_digits s' (10 * acc + d)
      | None => None
      end
  end.

Definition parse_nat (s : string) : option Z :=
  match s with
  | EmptyString => None
  | _ => parse_digits s 0
  end.

Definition parse_int (s : string) : option Z :=
  match s with
  | String "-"%char s' => Z.opp <$> parse_nat s'
  | _ => parse_nat s
  end.

(** A decimal literal [i.f] with at most 15 digits is the quotient of two
    integers that binary64 holds exactly, so one correctly rounded division
    gives the float nearest to it. *)
Definition parse_float (s : string) : option float :=
  match split_on "."%char s with
  | [i; f] =>
      match parse_nat (i ++ f) with
      | Some m =>
          if (String.length (i ++ f) <=? 15)%nat then
            Some (PrimFloat.div
                    (PrimFloat.of_uint63 (Uint63.of_Z m))
                    (PrimFloat.of_uint63
                       (Uint63.of_Z (10 ^ Z.of_nat (String.length f)))))
          else None
      | None => None
      end
  | _ => None
  end.

(** [f(a)] split into [f] and [a]. *)
Fixpoint split_call (src : string) : option (string * string) :=
  match src with
  | EmptyString => None
  | String c s' =>
      if Ascii.eqb c "("%char then
        if endswith s' ")"
        then Some (EmptyString, substring 0 (String.length s' - 1) s')
        else None
      else match split_call s' with
           | Some (f, a) => Some (String c f, a)
           | None => None
           end
  end.

Definition sample_eval (src : string) : result value :=
  match split_call src with
  | Some (f, a) =>
      if String.eqb f "int" then
        match parse_int a with
        | Some z => Ok (VInt z)
        | None => Raise (Exn "SyntaxError" "invalid syntax")
        end
      else if String.eqb f "float" then
        match parse_float a with
        | Some x => Ok (VFloat x)
        | None => Raise (Exn "SyntaxError" "invalid syntax")
        end
      else if String.eqb f "bool" then
        if String.eqb a "True" then Ok (VBool true)
        else if String.eqb a "False" then Ok (VBool false)
        else Raise (Exn "SyntaxError" "invalid syntax")
      else Raise (Exn "NameError" ("name '" ++ f ++ "' is not defined"))
  | None => Raise (Exn "SyntaxError" "invalid syntax")
  end.

Definition newline : string := String "010"%char EmptyString.
Definition quote : string := String (ascii_of_nat 34) EmptyString.

Fixpoint spaces (n : nat) : string :=
  match n with
  | O => EmptyString
  | S n' => String " "%char (spaces n')
  end.

(** Text that JSON prints between quotes as it is. *)
Definition plain_text (s : string) : bool :=
  forallb (fun a => let n := nat_of_ascii a in
                    (32 <=? n)%nat && (n <? 127)%nat
                    && negb (n =? 34)%nat && negb (n =? 92)%nat)
    (list_ascii_of_string s).

(** Items one per line, indented two spaces per level. *)
Definition block (depth : nat) (opening closing : string) (items : list string)
  : string :=
  match items with
  | [] => opening ++ closing
  | _ =>
      opening ++ newline ++ spaces (2 * S depth)
      ++ String.concat ("," ++ newline ++ spaces (2 * S depth)) items
      ++ newline ++ spaces (2 * depth) ++ closing
  end.

Fixpoint sample_json (depth : nat) (v : value) : option string :=
  match v with
  | VNone => Some "null"
  | VBool b => Some (if b then "true" else "false")
  | VInt z => Some (pretty z)
  | VStr s => if plain_text s then Some (quote ++ s ++ quote) else None
  | VFloat _ | VBytes _ => None
  | VList l =>
      block depth "[" "]" <$>
        (fix items (l : list value) : option (list string) :=
           match l with
           | [] => Some []
           | x :: r =>
               match sample_json (S depth) x, items r with
               | Some a, Some b => Some (a :: b)
               | _, _ => None
               end
           end) l
  | VDict d =>
      block depth "{" "}" <$>
        (fix items (d : dict) : option (list string) :=
           match d with
           | [] => Some []
           | (k, x) :: r =>
               match sample_json (S depth) x, items r with
               | Some a, Some b =>
                   if plain_text k
                   then Some ((quote ++ k ++ quote ++ ": " ++ a) :: b)
                   else None
               | _, _ => None
               end
           end) d
  end.

(** The first of [documents] whose text is [text]. *)
Fixpoint sample_load (documents : list value) (text : string) : result value :=
  match documents with
  | [] => Raise (Exn "JSONDecodeError" "Expecting value")
  | v :: rest =>
      match sample_json 0 v with
      | Some t => if String.eqb t text then Ok v else sample_load rest text
      | None => sample_load rest text
      end
  end.

(** A tree as the document that is written like it. *)
Fixpoint as_document (v : value) : document :=
  match v with
  | VList l => Sequence (map as_document l)
  | VDict d => Mapping (map (fun kv => let '(k, x) := kv in (k, as_document x)) d)
  | _ => Scalar v
  end.

Fixpoint as_node (v : value) : yaml_node :=
  match v with
  | VList l => SequenceNode (map as_node l)
  | VDict d =>
      MappingNode (map (fun kv => let '(k, x) := kv in (Key k, as_node x)) d)
  | _ => ScalarNode v
  end.

Definition not_serializable : exn :=
  TypeError "Object of this type is not JSON serializable".

Definition sample_host (documents : list value)
  (git : list string -> result string) : Host := {|
  py_eval := fun sc src w => (unchanged sc (sample_eval src), w);
  json_parse := fun text =>
    match sample_load documents text with
    | Ok v => Ok (as_document v)
    | Raise e => Raise e
    end;
  yaml_compose := fun text =>
    match sample_load documents text with
    | Ok v => Ok (Some (as_node v))
    | Raise e => Raise e
    end;
  safitty_dump := fun v =>
    match sample_json 0 v with
    | Some t => (t, None)
    | None => (EmptyString, Some not_serializable)
    end;
  json_dumps := fun v =>
    match sample_json 0 v with
    | Some t => Ok t
    | None => Raise not_serializable
    end;
  decode_utf8 := fun b => Ok b;
  check_output := git;
  sys_version := "3.7.3";
  pip_version := "19.0.3";
  environ := fun k =>
    if String.eqb k "USER" then Some "alice"
    else if String.eqb k "PWD" then Some "/home/alice/run"
    else None;
  localtime := StructTime 2019 3 7 9 5 1;
  uname := ("Linux", "node1", "4.15.0", "#1 SMP", "x86_64")
|}.

(** The [git] executable is not installed: [subprocess] cannot start it. *)
Definition git_missing (cmd : list string) : result string :=
  Raise (FileNotFoundError "[Errno 2] No such file or directory: 'git': 'git'").

(** [git] runs outside any checkout and exits with status 128. *)
Definition git_no_checkout (cmd : list string) : result string :=
  Raise (CalledProcessError "Command returned non-zero exit status 128.").

(** The snapshot of the sample machine outside a checkout. *)
Definition sample_environment : dict :=
  match fst (get_environment_vars (sample_host [] git_no_checkout)
               (World [] ∅ [] [])) with
  | Ok env => env
  | Raise _ => []
  end.

(** The documents of the examples. *)
Definition config_a : dict := [("a", VInt 1)].
Definition config_logdir : dict :=
  [("args", VDict [("logdir", VStr "/from/config")])].

Definition sample_documents : list value :=
  [VDict config_a; VDict config_logdir; VDict sample_environment].

Definition host1 : Host := sample_host sample_documents git_no_checkout.


Definition text_of (v : value) : string :=
  match sample_json 0 v with Some t => t | None => EmptyString end.

(** A world with one namespace object, at address 0, and the given files. *)
Definition world_of (ns : namespace) (fs : gmap path node) : world :=
  World [ns] fs [] [].

(** A run whose only configuration file ends with [.yaml]. *)
Definition args_yaml : namespace :=
  {[ "configs" := VList [VStr "exp/config.yaml"] ]}.
Definition world_yaml : world :=
  world_of args_yaml
    {[ ["exp"] := Dir;
       ["exp"; "config.yaml"] := File (text_of (VDict config_a)) ]}.

(** A run with the empty text as [logdir] and as [comment], whose
    configuration file declares a log directory. *)
Definition args_logdir : namespace :=
  {[ "configs" := VList [VStr "exp/config.yml"];
     "logdir" := VStr "";
     "comment" := VStr "" ]}.
Definition world_logdir : world :=
  world_of args_logdir
    {[ ["exp"] := Dir;
       ["exp"; "config.yml"] := File (text_of (VDict config_logdir)) ]}.

(** A run whose configuration file declares arguments of its own. *)
Definition config_seed : dict :=
  [("args", VDict [("seed", VInt 1); ("epochs", VInt 10)])].
Definition host2 : Host := sample_host [VDict config_seed] git_no_checkout.
Definition args_seed : namespace :=
  {[ "configs" := VList [VStr "exp/seed.json"];
     "seed" := VInt 7;
     "resume" := VNone ]}.
Definition world_seed : world :=
  world_of args_seed
    {[ ["exp"] := Dir;
       ["exp"; "seed.json"] := File (text_of (VDict config_seed)) ]}.

(** A run without configuration files. *)
Definition args_bare : namespace :=
  {[ "configs" := VList []; "seed" := VInt 7; "resume" := VNone ]}.


(** ** Vocabulary for the environment snapshot *)

(** [type(v) == bytes] *)
Definition is_bytes (v : value) : bool :=
  match v with VBytes _ => true | _ => false end.

(** [type(v) == str] *)
Definition is_str (v : value) : bool :=
  match v with VStr _ => true | _ => false end.

(** The dictionary of lines 70-82, before the [git] entry. *)
Definition base_environment (h : Host) : dict :=
  let '(sysname, nodename, release, version, machine) := uname h in
  [ ("python_version", VStr (sys_version h));
    ("conda_environment", VStr (environ_get h "CONDA_DEFAULT_ENV" ""));
    ("pip", VStr (pip_version h));
    ("creation_time", VStr (strftime (localtime h)));
    ("sysname", VStr sysname);
    ("nodename", VStr nodename);
    ("release", VStr release);
    ("version", VStr version);
    ("architecture", VStr machine);
    ("user", VStr (environ_get h "USER" ""));
    ("path", VStr (environ_get h "PWD" "")) ].

(** The three commands of lines 86-94. *)
Definition git_branch_cmd : list string :=
  ["git"; "rev-parse"; "--abbrev-ref"; "HEAD"].
Definition git_commit_cmd : list string := ["git"; "rev-parse"; "HEAD"].
Definition git_origin_cmd (git_branch : string) : list string :=
  split_space ("git rev-parse origin/" ++ git_branch).

(** One of the three commands exits with a non-zero status, the ones before
    it having succeeded. *)
Definition git_exits_nonzero (h : Host) : Prop :=
  exists e,
    exn_class e = "CalledProcessError"
    /\ (check_output h git_branch_cmd = Raise e
        \/ exists o1 b,
             check_output h git_branch_cmd = Ok o1
             /\ decode_utf8 h (strip_space o1) = Ok b
             /\ (check_output h git_commit_cmd = Raise e
                 \/ exists o2,
                      check_output h git_commit_cmd = Ok o2
                      /\ check_output h (git_origin_cmd b) = Raise e)).

(** The [try] statement of lines 85-103 on the dictionary of lines 70-82. *)
Definition git_block (h : Host) : M dict :=
  try_except
    (do out <- lift (check_output h git_branch_cmd);
     do git_branch <- lift (decode_utf8 h (strip_space out));
     do git_local_commit <- lift (check_output h git_commit_cmd);
     do git_origin_commit <- lift (check_output h (git_origin_cmd git_branch));
     do git' <-
       lift (_decode_dict h
               [ ("branch", VStr git_branch);
                 ("local_commit", VBytes git_local_commit);
                 ("origin_commit", VBytes git_origin_commit) ]);
     ret (dict_set (base_environment h) "git" (VDict git')))
    "CalledProcessError"
    (ret (base_environment h)).

(** A [git] entry: the three fields, each a text. *)
Definition git_fields (branch local origin : string) : dict :=
  [ ("branch", VStr branch);
    ("local_commit", VStr local);
    ("origin_commit", VStr origin) ].

(** A checkout without the remote [origin]: the first two commands answer,
    the third exits with status 128. *)
Definition git_no_remote (cmd : list string) : result string :=
  if decide (cmd = git_branch_cmd) then Ok ("master" ++ newline)
  else if decide (cmd = git_commit_cmd) then Ok ("3f2a9c1" ++ newline)
  else Raise (CalledProcessError "Command returned non-zero exit status 128.").

(** A checkout of the branch [master] that follows [origin/master]. *)
Definition git_repo (cmd : list string) : result string :=
  if decide (cmd = git_branch_cmd) then Ok ("master" ++ newline)
  else if decide (cmd = git_commit_cmd) then Ok ("3f2a9c1" ++ newline)
  else if decide (cmd = git_origin_cmd "master") then Ok ("77b0e45" ++ newline)
  else Raise (CalledProcessError "Command returned non-zero exit status 128.").

(** ** Sample worlds for [dump_config] *)


(** A target directory in which [configs] is a regular file. *)
Definition world_blocked : world :=
  world_of ∅ {[ ["D"] := Dir; ["D"; "configs"] := File "not a directory" ]}.

(** * Properties *)

(** ** Running a computation step by step *)

Lemma bind_Ok {A B} (m : M A) (k : A -> M B) (w w' : world) (a : A) :
  m w = (Ok a, w') -> bind m k w = k a w'.
Proof. intros H. unfold bind. by rewrite H. Qed.

Lemma bind_Raise {A B} (m : M A) (k : A -> M B) (w w' : world) (e : exn) :
  m w = (Raise e, w') -> bind m k w = (Raise e, w').
Proof. intros H. unfold bind. by rewrite H. Qed.

Lemma bind_Ok_inv {A B} (m : M A) (k : A -> M B) (w w' : world) (b : B) :
  bind m k w = (Ok b, w') ->
  exists a w1, m w = (Ok a, w1) /\ k a w1 = (Ok b, w').
Proof.
  unfold bind. destruct (m w) as [[a|e] w1]; [|done]. intros H. by exists a, w1.
Qed.

(** ** Dictionaries *)

Section DictFacts.
Implicit Types (d : dict) (k : string) (v : value).

Lemma dict_get_set_eq d k v : dict_get (dict_set d k v) k = Some v.
Proof.
  induction d as [|[k' v'] d IH]; simpl.
  - by rewrite String.eqb_refl.
  - destruct (String.eqb k' k) eqn:E; simpl.
    + by rewrite String.eqb_refl.
    + by rewrite E.
Qed.

Lemma dict_get_set_ne d k k' v :
  k <> k' -> dict_get (dict_set d k v) k' = dict_get d k'.
Proof.
  intros Hne. induction d as [|[k0 v0] d IH]; simpl.
  - by apply String.eqb_neq in Hne as ->.
  - destruct (String.eqb k0 k) eqn:E; simpl.
    + apply String.eqb_eq in E as ->.
      by apply String.eqb_neq in Hne as ->.
    + by rewrite IH.
Qed.

Lemma dict_get_None_keys d k : dict_get d k = None <-> k ∉ map fst d.
Proof.
  induction d as [|[k0 v0] d IH]; simpl.
  - split; [intros _ H; inversion H | done].
  - destruct (String.eqb k0 k) eqn:E.
    + apply String.eqb_eq in E as ->. split; [done | intros H].
      exfalso. apply H. left.
    + apply String.eqb_neq in E. rewrite IH. split.
      * intros H1 H2. apply elem_of_cons in H2 as [->|H2]; [done | by apply H1].
      * intros H1 H2. apply H1. by right.
Qed.

Lemma dict_set_keys d k v :
  map fst (dict_set d k v)
  = if dict_mem d k then map fst d else (map fst d ++ [k])%list.
Proof.
  unfold dict_mem. induction d as [|[k0 v0] d IH]; simpl; [done|].
  destruct (String.eqb k0 k) eqn:E; simpl.
  - by apply String.eqb_eq in E as ->.
  - rewrite IH. by destruct (dict_get d k).
Qed.

Lemma dict_set_NoDup d k v :
  NoDup (map fst d) -> NoDup (map fst (dict_set d k v)).
Proof.
  intros Hnd. rewrite dict_set_keys. unfold dict_mem.
  destruct (dict_get d k) eqn:E; [done|].
  apply dict_get_None_keys in E.
  apply NoDup_app. split_and!; [done | | apply NoDup_singleton].
  intros x Hx Hk. apply list_elem_of_singleton in Hk as ->. done.
Qed.

Lemma dict_get_elem_of d k v :
  NoDup (map fst d) -> dict_get d k = Some v <-> (k, v) ∈ d.
Proof.
  induction d as [|[k0 v0] d IH]; simpl; intros Hnd.
  - split; [done | intros H; inversion H].
  - apply NoDup_cons in Hnd as [Hk0 Hnd].
    destruct (String.eqb k0 k) eqn:E.
    + apply String.eqb_eq in E as ->. split.
      * intros [= ->]. left.
      * intros H. apply elem_of_cons in H as [[= ->]|H]; [done|].
        exfalso. apply Hk0. apply list_elem_of_fmap. by exists (k, v).
    + apply String.eqb_neq in E. rewrite IH by done. split.
      * intros H. by right.
      * intros H. apply elem_of_cons in H as [[= <- <-]|H]; done.
Qed.
End DictFacts.

(** ** [merge_dicts] *)

(** The equation the definition of [merge_dicts] unfolds to on an item. *)
Lemma merge_dicts_cons base k v rest :
  merge_dicts base ((k, v) :: rest)
  = merge_dicts
      (dict_set base k
         match dict_get base k, v with
         | Some (VDict a), VDict b => VDict (merge_dicts a b)
         | _, _ => v
         end) rest.
Proof.
  unfold merge_dicts at 1 2. simpl.
  destruct (dict_get base k) as [[]|], v; reflexivity.
Qed.

Lemma merge_dicts_nil base : merge_dicts base [] = base.
Proof. reflexivity. Qed.

(** Without items of the same key on the right, the lookups of the merge are
    those of the left tree where the right tree has no value. *)
Lemma merge_dicts_lookup base override k :
  NoDup (map fst override) ->
  dict_get (merge_dicts base override) k
  = match dict_get override k with
    | None => dict_get base k
    | Some v =>
        match dict_get base k, v with
        | Some (VDict a), VDict b => Some (VDict (merge_dicts a b))
        | _, _ => Some v
        end
    end.
Proof.
  revert base. induction override as [|[k0 v0] rest IH]; intros base Hnd.
  - done.
  - simpl in Hnd. apply NoDup_cons in Hnd as [Hk0 Hnd].
    rewrite merge_dicts_cons, IH by done. cbn [dict_get].
    destruct (String.eqb k0 k) eqn:E.
    + apply String.eqb_eq in E as ->.
      apply dict_get_None_keys in Hk0. rewrite Hk0, dict_get_set_eq.
      by destruct (dict_get base k) as [[]|], v0.
    + apply String.eqb_neq in E. by rewrite dict_get_set_ne.
Qed.

(** C6. The merge is right-biased and recursive: a key of the right tree
    alone takes the right value, a key of the left tree alone keeps the left
    value, a key bound to a tree on both sides is bound to the merge of the
    two trees, and in every other case of a key of both the right value
    replaces the left one (two lists are not concatenated).  The items of the
    right tree have distinct keys, as those of a mapping do. *)
Theorem merge_dicts_right_biased (A B : dict) (key : string) :
  NoDup (map fst B) ->
  (dict_get A key = None ->
   dict_get (merge_dicts A B) key = dict_get B key)
  /\ (dict_get B key = None ->
      dict_get (merge_dicts A B) key = dict_get A key)
  /\ (forall a b,
        dict_get A key = Some (VDict a) -> dict_get B key = Some (VDict b) ->
        dict_get (merge_dicts A B) key = Some (VDict (merge_dicts a b)))
  /\ (forall x y,
        dict_get A key = Some x -> dict_get B key = Some y ->
        is_dict x && is_dict y = false ->
        dict_get (merge_dicts A B) key = Some y).
Proof.
  intros Hnd. rewrite merge_dicts_lookup by done. split_and!.
  - intros ->. by destruct (dict_get B key).
  - by intros ->.
  - by intros a b -> ->.
  - intros x y -> -> Hxy. by destruct x, y.
Qed.

Lemma merge_dicts_right_biased_example :
  let A := [("model", VDict [("lr", VInt 1); ("depth", VInt 3)]);
            ("stages", VList [VStr "train"]); ("seed", VInt 7)] in
  let B := [("model", VDict [("lr", VInt 2)]);
            ("stages", VList [VStr "infer"]); ("tag", VStr "b")] in
  NoDup (map fst B)
  /\ dict_get (merge_dicts A B) "model"
     = Some (VDict [("lr", VInt 2); ("depth", VInt 3)])
  /\ dict_get (merge_dicts A B) "stages" = Some (VList [VStr "infer"])
  /\ dict_get (merge_dicts A B) "seed" = Some (VInt 7)
  /\ dict_get (merge_dicts A B) "tag" = Some (VStr "b").
Proof.
  intros A B.
  assert (Hnd : NoDup (map fst B)) by (apply (bool_decide_unpack _); vm_compute; exact I).
  split; [exact Hnd|].
  pose proof (merge_dicts_right_biased A B "model" Hnd) as (_ & _ & Hm & _).
  pose proof (merge_dicts_right_biased A B "stages" Hnd) as (_ & _ & _ & Hs).
  pose proof (merge_dicts_right_biased A B "seed" Hnd) as (_ & Hl & _ & _).
  pose proof (merge_dicts_right_biased A B "tag" Hnd) as (Hr & _ & _ & _).
  split_and!.
  - exact (Hm _ _ eq_refl eq_refl).
  - exact (Hs _ _ eq_refl eq_refl eq_refl).
  - exact (Hl eq_refl).
  - exact (Hr eq_refl).
Defined.

(** ** The heap outside the object a computation works on *)

Section Keeps.
Context (l : loc).



















End Keeps.









(** ** Override tokens *)

Lemma rsplit1_None (sep : ascii) (s : string) :
  contains sep s = false -> rsplit1 sep s = None.
Proof.
  induction s as [|c s IH]; simpl; [done|].
  intros [Hc Hs]%orb_false_iff. by rewrite IH, Hc.
Qed.

(** The loop stops at the first token that raises. *)
Lemma apply_overrides_raise (h : Host) (args : loc) (unknown_args : list string)
  (config : dict) (arg : string) (rest : list string) (w w' : world) (e : exn) :
  apply_override h args unknown_args config arg w = (Raise e, w') ->
  apply_overrides h args unknown_args config (arg :: rest) w = (Raise e, w').
Proof. intros H. simpl. unfold bind. by rewrite H. Qed.

Lemma parse_config_args_raise (h : Host) (args : loc) (config : dict)
  (arg : string) (rest : list string) (w w' : world) (e : exn) :
  apply_override h args (arg :: rest) config arg w = (Raise e, w') ->
  parse_config_args h config args (arg :: rest) w = (Raise e, w').
Proof.
  intros H. unfold parse_config_args, bind.
  by rewrite (apply_overrides_raise _ _ _ _ _ _ _ _ _ H).
Qed.

(** The run of a token that is evaluated, in terms of what the evaluation
    leaves. *)
Lemma apply_override_evaluated (h : Host) (args : loc)
  (unknown_args : list string) (config : dict)
  (arg name value content tag : string) (w w1 : world) (out : outcome) :
  unpack2 (split_on "="%char arg) = Ok (name, value) ->
  rsplit1 ":"%char value = Some (content, tag) ->
  tag <> "str" ->
  py_eval h (token_scope config args unknown_args arg name value content tag)
    (format_call tag content) w = (out, w1) ->
  apply_override h args unknown_args config arg w
  = match out_result out with
    | Raise e => (Raise e, after_eval (format_call tag content) w w1)
    | Ok v =>
        if contains "/"%char (strip "/"%char (lstrip "-"%char name)) then
          (set_path (out_config out)
             (match out_arg_names out with
              | Some l => l
              | None => split_on "/"%char (strip "/"%char (lstrip "-"%char name))
              end) v,
           after_eval (format_call tag content) w w1)
        else
          (do _ <- setattr args (strip "/"%char (lstrip "-"%char name)) v;
           ret (out_config out)) (after_eval (format_call tag content) w w1)
    end.
Proof.
  intros Hsplit Hvalue Htag. apply String.eqb_neq in Htag.
  unfold token_scope, apply_override, bind, lift, eval.
  rewrite Hsplit, Hvalue. simpl unpack2. cbv iota beta. rewrite Htag.
  destruct (contains _ _); intros ->; by destruct (out_result out).
Qed.

(** C1, as amended.  A token [name=content:tag] whose tag is not [str] has
    the text [tag(content)] passed to [eval], whatever the tag is; when the
    evaluation raises, that exception is the outcome of [parse_config_args],
    in the world that the evaluation left. *)
Theorem unknown_tag_is_evaluated (h : Host) (config : dict) (args : loc)
  (arg name value content tag : string) (rest : list string) (w : world) :
  unpack2 (split_on "="%char arg) = Ok (name, value) ->
  rsplit1 ":"%char value = Some (content, tag) ->
  tag <> "str" ->
  evaluated (snd (apply_override h args (arg :: rest) config arg w))
  = (evaluated w ++ [format_call tag content])%list
  /\ (forall e out w1,
        py_eval h
          (token_scope config args (arg :: rest) arg name value content tag)
          (format_call tag content) w = (out, w1) ->
        out_result out = Raise e ->
        parse_config_args h config args (arg :: rest) w
        = (Raise e, after_eval (format_call tag content) w w1)).
Proof.
  intros Hsplit Hvalue Htag.
  destruct (py_eval h
              (token_scope config args (arg :: rest) arg name value content tag)
              (format_call tag content) w) as [out w1] eqn:Heval.
  pose proof (apply_override_evaluated h args (arg :: rest) config arg name
                value content tag w w1 out Hsplit Hvalue Htag Heval) as Hrun.
  split.
  - rewrite Hrun. destruct (out_result out) as [v|e]; [|done].
    destruct (contains _ _); [done|].
    unfold setattr, bind, getattrs, ret. simpl.
    by destruct (heap w1 !! args).
  - intros e out' w1' [= <- <-] He. apply parse_config_args_raise.
    by rewrite Hrun, He.
Qed.

Lemma unknown_tag_is_evaluated_example :
  (unpack2 (split_on "="%char "--x=1:weird") = Ok ("--x", "1:weird")
   /\ rsplit1 ":"%char "1:weird" = Some ("1", "weird")
   /\ "weird" <> "str")
  /\ evaluated (snd (apply_override host1 0%nat ["--x=1:weird"] []
                       "--x=1:weird" (world_of ∅ ∅)))
     = ["weird(1)"]
  /\ parse_config_args host1 [] 0%nat ["--x=1:weird"] (world_of ∅ ∅)
     = (Raise (Exn "NameError" "name 'weird' is not defined"),
        log_eval "weird(1)" (world_of ∅ ∅)).
Proof.
  split; [split_and!; [reflexivity | reflexivity | discriminate]|].
  destruct (unknown_tag_is_evaluated host1 [] 0%nat "--x=1:weird" "--x"
              "1:weird" "1" "weird" [] (world_of ∅ ∅))
    as [Hlog Hraise]; [reflexivity | reflexivity | discriminate |].
  split; [exact Hlog|].
  exact (Hraise _ _ _ eq_refl eq_refl).
Defined.

(** C1, as stated, fails on the token ["--x=1:weird"]: the text [weird(1)]
    is evaluated, and what the call raises is the [NameError] of the
    evaluation. *)
Lemma unknown_tag_counterexample :
  parse_config_args host1 [] 0%nat ["--x=1:weird"] (world_of ∅ ∅)
  = (Raise (Exn "NameError" "name 'weird' is not defined"),
     World [∅] ∅ ["weird(1)"] []).
Proof. reflexivity. Qed.

(** C8, as amended.  A token with one [=] whose value holds no [:] makes
    [parse_config_args] raise the [ValueError] of the failed unpacking, whose
    message does not depend on the token; nothing is evaluated or stored for
    it, and the tokens after it are not read. *)
Theorem missing_type_raises_ValueError (h : Host) (config : dict) (args : loc)
  (arg name value : string) (rest : list string) (w : world) :
  unpack2 (split_on "="%char arg) = Ok (name, value) ->
  contains ":"%char value = false ->
  parse_config_args h config args (arg :: rest) w
  = (Raise (ValueError "not enough values to unpack (expected 2, got 1)"), w).
Proof.
  intros Hsplit Hvalue. apply parse_config_args_raise.
  unfold apply_override, bind, lift.
  by rewrite Hsplit, (rsplit1_None _ _ Hvalue).
Qed.

Lemma missing_type_raises_ValueError_example :
  (unpack2 (split_on "="%char "--x=1") = Ok ("--x", "1")
   /\ contains ":"%char "1" = false)
  /\ parse_config_args host1 [] 0%nat ["--x=1"; "--y=2:int"] (world_of ∅ ∅)
     = (Raise (ValueError "not enough values to unpack (expected 2, got 1)"),
        world_of ∅ ∅).
Proof.
  split; [split; reflexivity|].
  apply (missing_type_raises_ValueError host1 [] 0%nat "--x=1" "--x" "1");
    reflexivity.
Defined.

(** C8, as stated, fails on the token ["--x=1"]: the exception is a
    [ValueError], not a [MalformedOverrideError], and its message does not
    contain the token. *)
Lemma missing_type_counterexample :
  exists e,
    fst (parse_config_args host1 [] 0%nat ["--x=1"] (world_of ∅ ∅)) = Raise e
    /\ exn_class e = "ValueError"
    /\ exn_class e <> "MalformedOverrideError"
    /\ is_substring "--x=1" (exn_msg e) = false.
Proof.
  eexists. split_and!; [reflexivity | reflexivity | discriminate | reflexivity].
Qed.

(** With a slash in the name, the text [none] of type [str] becomes [None]
    (lines 157-161). *)
Lemma none_str_is_None_under_slash (h : Host) (args : loc)
  (unknown_args : list string) (w : world) :
  apply_override h args unknown_args [] "--a/tag=none:str" w
  = (Ok [("a", VDict [("tag", VNone)])], w).
Proof. reflexivity. Qed.

Lemma contains_app (c : ascii) (a b : string) :
  contains c (a ++ b) = contains c a || contains c b.
Proof.
  induction a as [|x a IH]; [done|].
  simpl. by rewrite IH, orb_assoc.
Qed.

Lemma split_on_no_sep (c : ascii) (s : string) :
  contains c s = false -> split_on c s = [s].
Proof.
  induction s as [|x s IH]; [done|]. cbn [contains split_on].
  intros [Hx Hs]%orb_false_iff. by rewrite Hx, IH.
Qed.

Lemma split_on_app (c : ascii) (a b : string) :
  contains c a = false ->
  split_on c (a ++ String c b) = a :: split_on c b.
Proof.
  induction a as [|x a IH]; simpl.
  - intros _. by rewrite Ascii.eqb_refl.
  - intros [Hx Ha]%orb_false_iff. by rewrite Hx, IH.
Qed.

Lemma rsplit1_app (c : ascii) (a b : string) :
  contains c b = false ->
  rsplit1 c (a ++ String c b) = Some (a, b).
Proof.
  intros Hb. induction a as [|x a IH]; simpl.
  - by rewrite (rsplit1_None _ _ Hb), Ascii.eqb_refl.
  - by rewrite IH.
Qed.

(** C2.  Without a slash in the name (lines 174-178) a value of type [str]
    is stored as the text it is, whatever the text, [none] in any case
    included: the token binds the attribute to the text, not to [None],
    whether [parse_config_args] goes on to return or to raise. *)
Theorem none_str_stays_text_without_slash (h : Host) (config : dict)
  (args : loc) (ns : namespace) (w : world) (name content : string)
  (unknown_args : list string) :
  heap w !! args = Some ns ->
  contains "="%char name = false ->
  contains "="%char content = false ->
  contains "/"%char (strip "/"%char (lstrip "-"%char name)) = false ->
  apply_override h args unknown_args config (name ++ "=" ++ content ++ ":str") w
  = (Ok config,
     set_heap (fun hp =>
       <[args := <[strip "/"%char (lstrip "-"%char name) := VStr content]> ns]> hp)
       w)
  /\ heap (snd (parse_config_args h config args
                  [name ++ "=" ++ content ++ ":str"] w)) !! args
     = Some (<[strip "/"%char (lstrip "-"%char name) := VStr content]> ns).
Proof.
  intros Hargs Hname Hcontent Hslash.
  assert (Hrun : forall ua,
    apply_override h args ua config (name ++ "=" ++ content ++ ":str") w
    = (Ok config,
       set_heap (fun hp =>
         <[args := <[strip "/"%char (lstrip "-"%char name) := VStr content]> ns]>
           hp) w)).
  { intros ua. unfold apply_override.
    change (name ++ "=" ++ content ++ ":str")
      with (name ++ String "="%char (content ++ ":str")).
    rewrite (split_on_app _ _ _ Hname).
    rewrite split_on_no_sep by (by rewrite contains_app, Hcontent).
    rewrite (bind_Ok _ _ w w (name, content ++ ":str")) by done.
    cbv beta iota.
    change (content ++ ":str") with (content ++ String ":"%char "str").
    rewrite rsplit1_app by done.
    rewrite (bind_Ok _ _ w w (content, "str")) by done.
    cbv beta iota. rewrite Hslash.
    change (String.eqb "str" "str") with true. cbv iota.
    rewrite (bind_Ok _ _ w w (VStr content, config, None)) by done.
    unfold setattr, bind, getattrs, ret. by rewrite Hargs. }
  split; [apply Hrun|].
  pose proof (lookup_lt_Some _ _ _ Hargs) as Hlt.
  set (ns' := <[strip "/"%char (lstrip "-"%char name) := VStr content]> ns) in *.
  set (w1 := set_heap (fun hp => <[args := ns']> hp) w) in *.
  assert (Hargs1 : heap w1 !! args = Some ns')
    by (by apply list_lookup_insert_eq).
  unfold parse_config_args. cbn [apply_overrides].
  rewrite (bind_Ok _ _ w w1 config)
    by (by rewrite (bind_Ok _ _ w w1 config (Hrun _))).
  rewrite (bind_Ok _ _ w1 w1 ns') by (by unfold getattrs; rewrite Hargs1).
  unfold bind, lift, ret. by destruct (store_args _ _).
Qed.

Lemma none_str_stays_text_without_slash_example :
  (heap (world_of ∅ ∅) !! 0%nat = Some ∅
   /\ contains "="%char "--tag" = false
   /\ contains "="%char "none" = false
   /\ contains "/"%char (strip "/"%char (lstrip "-"%char "--tag")) = false)
  /\ apply_override host1 0%nat ["--tag=none:str"] [] "--tag=none:str"
       (world_of ∅ ∅)
     = (Ok [], world_of {[ "tag" := VStr "none" ]} ∅)
  /\ parse_config_args host1 [] 0%nat ["--tag=none:str"] (world_of ∅ ∅)
     = (Ok ([("args", VDict [("tag", VStr "none")])], 0%nat),
        world_of {[ "tag" := VStr "none" ]} ∅).
Proof.
  split; [by split_and!|].
  split; [|reflexivity].
  exact (proj1 (none_str_stays_text_without_slash host1 [] 0%nat ∅
                  (world_of ∅ ∅) "--tag" "none" ["--tag=none:str"]
                  eq_refl eq_refl eq_refl eq_refl)).
Defined.

(** ** Navigation along a slash-separated name *)

Lemma dict_set_set (d : dict) (k : string) (x y : value) :
  dict_set (dict_set d k x) k y = dict_set d k y.
Proof.
  induction d as [|[k0 v0] d IH]; simpl.
  - by rewrite String.eqb_refl.
  - destruct (String.eqb k0 k) eqn:E; simpl.
    + by rewrite String.eqb_refl.
    + by rewrite E, IH.
Qed.

Lemma set_path_cons (config_ : dict) (n k : string) (rest : list string)
  (v : value) :
  set_path config_ (n :: k :: rest) v
  = match (match dict_get config_ n with Some c => c | None => VDict [] end) with
    | VDict d =>
        match set_path d (k :: rest) v with
        | Ok d' => Ok (dict_set config_ n (VDict d'))
        | Raise e => Raise e
        end
    | c =>
        Raise (match rest with
               | _ :: _ => descend_error k c
               | [] => setitem_error c
               end)
    end.
Proof.
  simpl. destruct (match dict_get config_ n with Some c => c | None => VDict [] end);
    try reflexivity; by destruct rest.
Qed.

Lemma get_path_cons (config : dict) (n k : string) (rest : list string) :
  get_path config (n :: k :: rest)
  = match dict_get config n with
    | Some (VDict d) => get_path d (k :: rest)
    | _ => None
    end.
Proof. reflexivity. Qed.

(** What [set_path] stores is what [get_path] reads back. *)
Lemma set_path_get_path (arg_names : list string) (v : value) :
  arg_names <> [] ->
  forall config config',
    set_path config arg_names v = Ok config' ->
    get_path config' arg_names = Some v.
Proof.
  induction arg_names as [|n rest IH]; [done|]. intros _ config config'.
  destruct rest as [|k rest].
  - simpl. intros [= <-]. apply dict_get_set_eq.
  - rewrite set_path_cons, get_path_cons.
    destruct (match dict_get config n with Some c => c | None => VDict [] end)
      as [| | | | | | |d]; try done.
    destruct (set_path d (k :: rest) v) as [d'|e] eqn:E; [|done].
    intros [= <-]. rewrite dict_get_set_eq. by apply (IH) with (config := d).
Qed.

(** The keys other than the first segment keep their values. *)
Lemma set_path_other (arg_names : list string) (v : value) (config config' : dict)
  (k : string) :
  set_path config arg_names v = Ok config' ->
  head arg_names <> Some k ->
  dict_get config' k = dict_get config k.
Proof.
  destruct arg_names as [|n [|n' rest]].
  - done.
  - intros [= <-] Hne. apply dict_get_set_ne. simpl in Hne. congruence.
  - rewrite set_path_cons.
    destruct (match dict_get config n with Some c => c | None => VDict [] end)
      as [| | | | | | |d]; try done.
    destruct (set_path d (n' :: rest) v) as [d'|e]; [|done].
    intros [= <-] Hne. apply dict_get_set_ne. simpl in Hne. congruence.
Qed.

(** Below a name that is absent every intermediate tree is created. *)
Lemma set_path_create (arg_names : list string) (v : value) :
  arg_names <> [] ->
  exists config', set_path [] arg_names v = Ok config'.
Proof.
  induction arg_names as [|n rest IH]; [done|]. intros _.
  destruct rest as [|k rest]; [by eexists|].
  destruct IH as [d' Hd']; [done|]. exists [(n, VDict d')].
  rewrite set_path_cons. cbn [dict_get]. by rewrite Hd'.
Qed.

Lemma set_path_absent (config : dict) (n : string) (rest : list string) (v : value) :
  dict_get config n = None -> rest <> [] ->
  exists d', set_path [] rest v = Ok d'
             /\ set_path config (n :: rest) v = Ok (dict_set config n (VDict d')).
Proof.
  intros Hn Hrest. destruct (set_path_create rest v Hrest) as [d' Hd'].
  exists d'. split; [done|].
  destruct rest as [|k rest]; [done|]. rewrite set_path_cons. by rewrite Hn, Hd'.
Qed.

(** An existing tree on the way is entered and updated in place. *)
Lemma set_path_present (config d d' : dict) (n : string) (rest : list string)
  (v : value) :
  dict_get config n = Some (VDict d) -> rest <> [] ->
  set_path d rest v = Ok d' ->
  set_path config (n :: rest) v = Ok (dict_set config n (VDict d')).
Proof.
  intros Hn Hrest Hd'. destruct rest as [|k rest]; [done|].
  rewrite set_path_cons. by rewrite Hn, Hd'.
Qed.

(** ** The attributes of a namespace, sorted *)

Lemma _get_kwargs_Permutation (ns : namespace) :
  _get_kwargs ns ≡ₚ map_to_list ns.
Proof. apply merge_sort_Permutation. Qed.

Lemma _get_kwargs_NoDup (ns : namespace) : NoDup (map fst (_get_kwargs ns)).
Proof.
  rewrite (_get_kwargs_Permutation ns). apply NoDup_fst_map_to_list.
Qed.

Lemma _get_kwargs_lookup (ns : namespace) (k : string) :
  dict_get (_get_kwargs ns) k = ns !! k.
Proof.
  apply option_eq. intros v.
  rewrite dict_get_elem_of by apply _get_kwargs_NoDup.
  rewrite (_get_kwargs_Permutation ns). apply elem_of_map_to_list.
Qed.

(** ** Copying the attributes into [config["args"]] *)

(** When [config["args"]] is a dictionary the loop of lines 184-188 succeeds
    and touches that entry only; each key of the new entry holds the
    attribute of that name when the attribute is stored, and what it held
    before otherwise. *)
Lemma store_args_spec (items : dict) :
  NoDup (map fst items) ->
  forall (config a : dict),
    dict_get config "args" = Some (VDict a) ->
    exists a',
      store_args items config = Ok (dict_set config "args" (VDict a'))
      /\ (NoDup (map fst a) -> NoDup (map fst a'))
      /\ forall k,
           dict_get a' k
           = match dict_get items k with
             | Some v => if stored k v then Some v else dict_get a k
             | None => dict_get a k
             end.
Proof.
  induction items as [|[key value] rest IH]; intros Hnd config a Hargs.
  - exists a. split_and!; [|done|done].
    simpl. f_equal. clear -Hargs.
    induction config as [|[k0 v0] config IHc]; [done|]. simpl in *.
    destruct (String.eqb k0 "args") eqn:E.
    + apply String.eqb_eq in E as ->. by injection Hargs as ->.
    + by rewrite <- IHc.
  - simpl in Hnd. apply NoDup_cons in Hnd as [Hkey Hnd].
    apply dict_get_None_keys in Hkey.
    assert (Hskip : stored key value = false ->
      forall k, match dict_get rest k with
                | Some v => if stored k v then Some v else dict_get a k
                | None => dict_get a k
                end
                = match dict_get ((key, value) :: rest) k with
                  | Some v => if stored k v then Some v else dict_get a k
                  | None => dict_get a k
                  end).
    { intros Hs k. cbn [dict_get]. destruct (String.eqb key k) eqn:E; [|done].
      apply String.eqb_eq in E as <-. by rewrite Hkey, Hs. }
    cbn [store_args]. unfold stored in Hskip.
    destruct (is_none value) eqn:Hnone.
    { destruct (IH Hnd config a Hargs) as (a' & Hrun & Ha' & Hget).
      exists a'. split_and!; [done..|]. intros k. rewrite Hget. by apply Hskip. }
    destruct (is_logdir_key key && is_empty_str value) eqn:Hempty.
    { destruct (IH Hnd config a Hargs) as (a' & Hrun & Ha' & Hget).
      exists a'. split_and!; [done..|]. intros k. rewrite Hget. by apply Hskip. }
    rewrite Hargs.
    destruct (IH Hnd (dict_set config "args" (VDict (dict_set a key value)))
                (dict_set a key value) (dict_get_set_eq _ _ _))
      as (a' & Hrun & Ha' & Hget).
    exists a'. split_and!.
    + by rewrite Hrun, dict_set_set.
    + intros Ha. by apply Ha', dict_set_NoDup.
    + intros k. rewrite Hget. cbn [dict_get].
      destruct (String.eqb key k) eqn:E.
      * apply String.eqb_eq in E as <-. unfold stored.
        by rewrite Hkey, Hnone, Hempty, dict_get_set_eq.
      * apply String.eqb_neq in E. by rewrite dict_get_set_ne.
Qed.

(** The token of the example, run on the empty configuration by a host on
    which [float(0.01)] has a value and no effect. *)
Lemma apply_override_model_lr (h : Host) (args : loc) (w : world) (v : value) :
  let sc :=
    token_scope [] args ["--model/lr=0.01:float"] "--model/lr=0.01:float"
      "--model/lr" "0.01:float" "0.01" "float" in
  py_eval h sc "float(0.01)" w = (unchanged sc (Ok v), w) ->
  apply_override h args ["--model/lr=0.01:float"] [] "--model/lr=0.01:float" w
  = (Ok [("model", VDict [("lr", v)])], log_eval "float(0.01)" w).
Proof.
  intros sc Heval.
  by rewrite (apply_override_evaluated h args ["--model/lr=0.01:float"] []
                "--model/lr=0.01:float" "--model/lr" "0.01:float" "0.01" "float"
                w w _ eq_refl eq_refl ltac:(done) Heval).
Qed.

(** C7, as amended.  On the empty configuration the token
    ["--model/lr=0.01:float"] yields the tree with [model] bound to the tree
    that binds [lr] to the float [eval] returns for [float(0.01)], followed
    by the entry [args] that [parse_config_args] always adds, which holds the
    stored attributes of the namespace.  In general the navigation binds the
    value at the end of the path, keeps every other top-level key, enters the
    trees that exist and creates the ones that are absent. *)
Theorem float_override_on_empty_config (h : Host) (args : loc) (ns : namespace)
  (w : world) (f : float) :
  let sc :=
    token_scope [] args ["--model/lr=0.01:float"] "--model/lr=0.01:float"
      "--model/lr" "0.01:float" "0.01" "float" in
  heap w !! args = Some ns ->
  py_eval h sc "float(0.01)" w = (unchanged sc (Ok (VFloat f)), w) ->
  (exists a,
      parse_config_args h [] args ["--model/lr=0.01:float"] w
      = (Ok ([("model", VDict [("lr", VFloat f)]); ("args", VDict a)], args),
         log_eval "float(0.01)" w)
      /\ forall k,
           dict_get a k
           = match ns !! k with
             | Some v => if stored k v then Some v else None
             | None => None
             end)
  /\ (forall arg_names v config config',
        arg_names <> [] ->
        set_path config arg_names v = Ok config' ->
        get_path config' arg_names = Some v
        /\ forall k, head arg_names <> Some k ->
                     dict_get config' k = dict_get config k)
  /\ (forall config n rest v,
        dict_get config n = None -> rest <> [] ->
        exists d', set_path [] rest v = Ok d'
                   /\ set_path config (n :: rest) v
                      = Ok (dict_set config n (VDict d')))
  /\ (forall config d d' n rest v,
        dict_get config n = Some (VDict d) -> rest <> [] ->
        set_path d rest v = Ok d' ->
        set_path config (n :: rest) v = Ok (dict_set config n (VDict d'))).
Proof.
  intros sc Hargs Heval. split_and!.
  - destruct (store_args_spec (_get_kwargs ns) (_get_kwargs_NoDup ns)
                [("model", VDict [("lr", VFloat f)]); ("args", VDict [])] []
                eq_refl) as (a & Hrun & _ & Hget).
    exists a. split.
    + unfold parse_config_args. unfold bind at 1. simpl apply_overrides.
      unfold bind at 1. rewrite (apply_override_model_lr _ _ _ _ Heval).
      unfold ret at 1. unfold bind, getattrs, lift. simpl heap.
      rewrite Hargs.
      change (ensure_args [("model", VDict [("lr", VFloat f)])])
        with [("model", VDict [("lr", VFloat f)]); ("args", VDict [])].
      by rewrite Hrun.
    + intros k. by rewrite Hget, _get_kwargs_lookup.
  - intros arg_names v config config' Hne Hset. split.
    + by apply (set_path_get_path arg_names v Hne config).
    + intros k Hk. by apply (set_path_other arg_names v).
  - apply set_path_absent.
  - apply set_path_present.
Qed.

Lemma float_override_on_empty_config_example :
  (heap (world_of ∅ ∅) !! 0%nat = Some ∅
   /\ py_eval host1
        (token_scope [] 0%nat ["--model/lr=0.01:float"] "--model/lr=0.01:float"
           "--model/lr" "0.01:float" "0.01" "float")
        "float(0.01)" (world_of ∅ ∅)
      = (unchanged
           (token_scope [] 0%nat ["--model/lr=0.01:float"]
              "--model/lr=0.01:float" "--model/lr" "0.01:float" "0.01" "float")
           (Ok (VFloat 0x1.47ae147ae147bp-7%float)),
         world_of ∅ ∅))
  /\ parse_config_args host1 [] 0%nat ["--model/lr=0.01:float"] (world_of ∅ ∅)
     = (Ok ([("model", VDict [("lr", VFloat 0x1.47ae147ae147bp-7%float)]);
             ("args", VDict [])], 0%nat),
        World [∅] ∅ ["float(0.01)"] []).
Proof.
  split; [split; reflexivity|].
  destruct (float_override_on_empty_config host1 0%nat ∅ (world_of ∅ ∅)
              0x1.47ae147ae147bp-7%float eq_refl eq_refl)
    as ((a & Hrun & Hget) & _).
  rewrite Hrun. destruct a as [|[k v] a]; [reflexivity|].
  specialize (Hget k). simpl in Hget. by rewrite String.eqb_refl in Hget.
Defined.

(** C7, as stated, fails: the tree returned for the token is not the tree
    with the single key [model], it also has the key [args]. *)
Lemma float_override_counterexample :
  exists c,
    fst (parse_config_args host1 [] 0%nat ["--model/lr=0.01:float"]
           (world_of ∅ ∅)) = Ok (c, 0%nat)
    /\ c <> [("model", VDict [("lr", VFloat 0x1.47ae147ae147bp-7%float)])]
    /\ map fst c = ["model"; "args"].
Proof.
  eexists. split_and!; [reflexivity | discriminate | reflexivity].
Qed.

(** ** Computations that read the files only *)

Lemma files_only_run {A} (m : M A) (w w2 : world) :
  files_only m -> files w2 = files w -> m w2 = (fst (m w), w2).
Proof.
  intros Hm Hf. destruct (Hm w) as [_ Hfst]. destruct (Hm w2) as [Hsnd _].
  rewrite <- (Hfst w2 Hf). rewrite <- Hsnd at 3. by destruct (m w2).
Qed.

Lemma files_only_ret {A} (a : A) : files_only (ret a).
Proof. by intros w. Qed.

Lemma files_only_raise {A} (e : exn) : files_only (@raise A e).
Proof. by intros w. Qed.

Lemma files_only_lift {A} (r : result A) : files_only (lift r).
Proof. by intros w. Qed.

Lemma files_only_bind {A B} (m : M A) (k : A -> M B) :
  files_only m -> (forall a, files_only (k a)) -> files_only (bind m k).
Proof.
  intros Hm Hk w. split.
  - unfold bind. destruct (Hm w) as [Hw _].
    destruct (m w) as [[a|e] w'] eqn:E; simpl in Hw; subst w'; [|done].
    apply Hk.
  - intros w2 Hf. unfold bind.
    rewrite (files_only_run m w w2 Hm Hf).
    rewrite (files_only_run m w w Hm eq_refl).
    destruct (fst (m w)) as [a|e]; [|done]. by apply Hk.
Qed.

Lemma files_only_read_file (text : string) (p : path) :
  files_only (read_file text p).
Proof.
  intros w. unfold read_file. split.
  - destruct (lookup_node (files w) p) as [[]|]; [done..|].
    by destruct (blocked _ _).
  - intros w2 ->. destruct (lookup_node (files w) p) as [[]|]; [done..|].
    by destruct (blocked _ _).
Qed.

Lemma files_only_open_read (text : string) : files_only (open_read text).
Proof.
  intros w. unfold open_read. destruct text as [|c text]; [done|]. split.
  - destruct (walk _ _ _ _); [apply files_only_read_file | done].
  - intros w2 Hf. rewrite Hf. destruct (walk _ _ _ _); [|done].
    by apply files_only_read_file.
Qed.

Lemma files_only_load_config (h : Host) (config_path : value) :
  files_only (load_config h config_path).
Proof.
  destruct config_path; simpl; try apply files_only_raise.
  - apply files_only_bind.
    + apply files_only_open_read.
    + intros content.
      destruct (endswith s "json"); [apply files_only_lift|].
      destruct (endswith s "yml");
        [apply files_only_lift | apply files_only_raise].
  - apply files_only_bind;
      [apply files_only_open_read | intros; apply files_only_raise].
Qed.

Lemma files_only_load_configs (h : Host) (paths : list value) :
  forall config, files_only (load_configs h config paths).
Proof.
  induction paths as [|p rest IH]; intros config; simpl.
  - apply files_only_ret.
  - apply files_only_bind; [apply files_only_load_config|].
    intros []; try apply files_only_raise. apply IH.
Qed.

(** ** Merging [config["args"]] back onto the namespace *)

(** Over items of distinct keys the loop of lines 225-230 succeeds and
    rewrites the namespace at [l] only: an attribute named by an item takes
    the value of the item when it is unset, and every other attribute keeps
    its value. *)
Lemma merge_back_spec (l : loc) (items : dict) :
  NoDup (map fst items) ->
  forall (w : world) (ns0 : namespace),
    heap w !! l = Some ns0 ->
    exists ns1,
      merge_back l items w = (Ok tt, set_heap (fun hp => <[l := ns1]> hp) w)
      /\ forall k,
           ns1 !! k
           = match dict_get items k with
             | Some v => if unset k (ns0 !! k) then Some v else ns0 !! k
             | None => ns0 !! k
             end.
Proof.
  induction items as [|[key value] rest IH]; intros Hnd w ns0 Hl.
  - exists ns0. split; [|done]. simpl. unfold ret, set_heap.
    rewrite list_insert_id by done. by destruct w.
  - simpl in Hnd. apply NoDup_cons in Hnd as [Hkey Hnd].
    apply dict_get_None_keys in Hkey.
    set (chosen :=
           let arg_value := match ns0 !! key with Some c => c | None => VNone end in
           if is_none arg_value || (is_logdir_key key && is_empty_str arg_value)
           then value else arg_value).
    pose proof (lookup_lt_Some _ _ _ Hl) as Hlt.
    destruct (IH Hnd (set_heap (fun hp => <[l := <[key := chosen]> ns0]> hp) w)
                (<[key := chosen]> ns0)) as (ns1 & Hrun & Hget).
    { simpl. by apply list_lookup_insert_eq. }
    exists ns1. split.
    + cbn [merge_back].
      rewrite (bind_Ok _ _ w w (match ns0 !! key with Some c => c | None => VNone end)).
      2:{ unfold getattr_default, bind, getattrs, ret. by rewrite Hl. }
      rewrite (bind_Ok _ _ w
                 (set_heap (fun hp => <[l := <[key := chosen]> ns0]> hp) w) tt).
      2:{ unfold setattr, bind, getattrs. by rewrite Hl. }
      rewrite Hrun. f_equal. unfold set_heap. simpl.
      by rewrite list_insert_insert_eq.
    + intros k. rewrite Hget. cbn [dict_get].
      destruct (String.eqb key k) eqn:E.
      * apply String.eqb_eq in E as <-. rewrite Hkey, lookup_insert_eq.
        unfold chosen, unset. destruct (ns0 !! key) as [c|]; simpl; [|done].
        by destruct (is_none c || _).
      * apply String.eqb_neq in E. by rewrite lookup_insert_ne.
Qed.

(** ** [parse_args_uargs] without override tokens *)

Lemma ensure_args_dict (config a : dict) :
  dict_get config "args" = Some (VDict a) -> ensure_args config = config.
Proof. intros H. unfold ensure_args. by rewrite H. Qed.

(** When the loaded configuration binds [args] to a tree, the call succeeds;
    it returns the copy of the namespace, made at the first free address,
    and the configuration with the stored attributes written into [args]. *)
Lemma parse_args_uargs_no_overrides (h : Host) (args : loc) (ns : namespace)
  (w : world) (configs : value) (paths : list value) (config0 a : dict) :
  heap w !! args = Some ns ->
  ns !! "configs" = Some configs ->
  iterate configs = Ok paths ->
  fst (load_configs h [] paths w) = Ok config0 ->
  dict_get config0 "args" = Some (VDict a) ->
  NoDup (map fst a) ->
  exists (a2 : dict) (ns1 : namespace),
    parse_args_uargs h args [] w
    = (Ok (List.length (heap w), dict_set config0 "args" (VDict a2)),
       set_heap (fun hp => (hp ++ [ns1])%list) w)
    /\ (forall k,
          dict_get a2 k
          = match ns !! k with
            | Some v => if stored k v then Some v else dict_get a k
            | None => dict_get a k
            end)
    /\ (forall k,
          ns1 !! k
          = match dict_get a2 k with
            | Some v => if unset k (ns !! k) then Some v else ns !! k
            | None => ns !! k
            end).
Proof.
  intros Hargs Hconfigs Hiter Hload Ha Hnd.
  set (n := List.length (heap w)).
  set (w1 := set_heap (fun hp => (hp ++ [ns])%list) w).
  assert (Hn : heap w1 !! n = Some ns) by (by apply list_lookup_middle).
  destruct (store_args_spec (_get_kwargs ns) (_get_kwargs_NoDup ns) config0 a Ha)
    as (a2 & Hstore & Hnd2 & Hget2).
  destruct (merge_back_spec n a2 (Hnd2 Hnd) w1 ns Hn) as (ns1 & Hback & Hget1).
  exists a2, ns1. split_and!.
  - unfold parse_args_uargs.
    rewrite (bind_Ok _ _ w w1 n).
    2:{ unfold deepcopy, bind, getattrs. by rewrite Hargs. }
    rewrite (bind_Ok _ _ w1 w1 configs).
    2:{ unfold getattr, bind, getattrs. by rewrite Hn, Hconfigs. }
    rewrite (bind_Ok _ _ w1 w1 paths) by (by unfold lift; rewrite Hiter).
    rewrite (bind_Ok _ _ w1 w1 config0).
    2:{ rewrite (files_only_run _ w w1 (files_only_load_configs h paths []) eq_refl).
        by rewrite Hload. }
    rewrite (bind_Ok _ _ w1 w1 (dict_set config0 "args" (VDict a2), n)).
    2:{ unfold parse_config_args. simpl apply_overrides.
        rewrite (bind_Ok _ _ w1 w1 config0) by done.
        rewrite (ensure_args_dict _ _ Ha).
        rewrite (bind_Ok _ _ w1 w1 ns) by (by unfold getattrs; rewrite Hn).
        rewrite (bind_Ok _ _ w1 w1 (dict_set config0 "args" (VDict a2)))
          by (by unfold lift; rewrite Hstore).
        done. }
    cbv beta iota. rewrite dict_get_set_eq.
    rewrite (bind_Ok _ _ w1 _ tt Hback). unfold ret. f_equal.
    unfold set_heap, w1, n. simpl. f_equal.
    rewrite insert_app_r_alt by done. by rewrite Nat.sub_diag.
  - intros k. by rewrite Hget2, _get_kwargs_lookup.
  - done.
Qed.

(** C5.  For [logdir] and [baselogdir], and only for them, an attribute that
    is the empty text counts as unset: [parse_args_uargs] returns a namespace
    in which such a log directory field holds the value that [config["args"]]
    declares for it, while any other attribute that is the empty text stays
    the empty text. *)
Theorem empty_logdir_counts_as_unset (h : Host) (args : loc) (ns : namespace)
  (w : world) (configs : value) (paths : list value) (config0 a : dict) :
  heap w !! args = Some ns ->
  ns !! "configs" = Some configs ->
  iterate configs = Ok paths ->
  fst (load_configs h [] paths w) = Ok config0 ->
  dict_get config0 "args" = Some (VDict a) ->
  NoDup (map fst a) ->
  exists (config : dict) (ns1 : namespace),
    parse_args_uargs h args [] w
    = (Ok (List.length (heap w), config),
       set_heap (fun hp => (hp ++ [ns1])%list) w)
    /\ (forall key v,
          is_logdir_key key = true ->
          ns !! key = Some (VStr "") ->
          dict_get a key = Some v ->
          ns1 !! key = Some v)
    /\ (forall key,
          is_logdir_key key = false ->
          ns !! key = Some (VStr "") ->
          ns1 !! key = Some (VStr "")).
Proof.
  intros Hargs Hconfigs Hiter Hload Ha Hnd.
  destruct (parse_args_uargs_no_overrides h args ns w configs paths config0 a)
    as (a2 & ns1 & Hrun & Hget2 & Hget1); try done.
  exists (dict_set config0 "args" (VDict a2)), ns1. split_and!; [done| |].
  - intros key v Hkey Hns Hv.
    rewrite Hget1, Hget2, Hns. unfold stored, unset. simpl.
    by rewrite Hkey, Hv.
  - intros key Hkey Hns.
    rewrite Hget1, Hget2, Hns. unfold stored, unset. simpl.
    by rewrite Hkey.
Qed.

Lemma empty_logdir_counts_as_unset_example :
  (heap world_logdir !! 0%nat = Some args_logdir
   /\ args_logdir !! "configs" = Some (VList [VStr "exp/config.yml"])
   /\ iterate (VList [VStr "exp/config.yml"]) = Ok [VStr "exp/config.yml"]
   /\ fst (load_configs host1 [] [VStr "exp/config.yml"] world_logdir)
      = Ok config_logdir
   /\ dict_get config_logdir "args"
      = Some (VDict [("logdir", VStr "/from/config")])
   /\ NoDup (map fst [("logdir", VStr "/from/config")]))
  /\ exists (config : dict) (ns1 : namespace),
       parse_args_uargs host1 0%nat [] world_logdir
       = (Ok (1%nat, config),
          set_heap (fun hp => (hp ++ [ns1])%list) world_logdir)
       /\ ns1 !! "logdir" = Some (VStr "/from/config")
       /\ ns1 !! "comment" = Some (VStr "").
Proof.
  assert (Hnd : NoDup (map fst [("logdir", VStr "/from/config")]))
    by (apply (bool_decide_unpack _); vm_compute; exact I).
  split; [split_and!; try reflexivity; exact Hnd|].
  destruct (empty_logdir_counts_as_unset host1 0%nat args_logdir world_logdir
              (VList [VStr "exp/config.yml"]) [VStr "exp/config.yml"]
              config_logdir [("logdir", VStr "/from/config")]
              eq_refl eq_refl eq_refl eq_refl eq_refl Hnd)
    as (config & ns1 & Hrun & Hlog & Hother).
  exists config, ns1. split_and!.
  - exact Hrun.
  - exact (Hlog "logdir" (VStr "/from/config") eq_refl eq_refl eq_refl).
  - exact (Hother "comment" eq_refl eq_refl).
Defined.

(** ** Loading configuration files *)

Lemma dict_set_absent (d : dict) (k : string) (v : value) :
  dict_get d k = None -> dict_set d k v = (d ++ [(k, v)])%list.
Proof.
  induction d as [|[k0 v0] d IH]; simpl; [done|].
  destruct (String.eqb k0 k); [done|]. intros H. by rewrite IH.
Qed.

(** Merging a tree whose keys are new to the base appends its items. *)
Lemma merge_dicts_disjoint (override : dict) :
  NoDup (map fst override) ->
  forall base,
    (forall k, k ∈ map fst override -> dict_get base k = None) ->
    merge_dicts base override = (base ++ override)%list.
Proof.
  induction override as [|[k v] rest IH]; intros Hnd base Hbase.
  - by rewrite merge_dicts_nil, app_nil_r.
  - simpl in Hnd. apply NoDup_cons in Hnd as [Hk Hnd].
    rewrite merge_dicts_cons.
    rewrite (Hbase k) by (simpl; left).
    rewrite dict_set_absent by (apply Hbase; simpl; left).
    rewrite IH; [by rewrite <- app_assoc | done |].
    intros k' Hk'. apply dict_get_None_keys. rewrite map_app. simpl.
    intros Hin. apply elem_of_app in Hin as [Hin|Hin].
    + revert Hin. apply dict_get_None_keys, Hbase. simpl. by right.
    + apply list_elem_of_singleton in Hin as ->. done.
Qed.

(** Merged into the empty configuration, a tree is itself, items in order. *)
Lemma merge_dicts_empty (d : dict) :
  NoDup (map fst d) -> merge_dicts [] d = d.
Proof. intros Hnd. by rewrite merge_dicts_disjoint. Qed.

Lemma endswith_cons (c : ascii) (t suffix : string) :
  (String.length suffix <= String.length t)%nat ->
  endswith (String c t) suffix = endswith t suffix.
Proof.
  intros Hlen. unfold endswith.
  change (String.length (String c t)) with (S (String.length t)).
  assert (Hsub : (S (String.length t) - String.length suffix
                  = S (String.length t - String.length suffix))%nat) by lia.
  rewrite Hsub.
  change (substring (S (String.length t - String.length suffix)%nat)
            (String.length suffix) (String c t))
    with (substring (String.length t - String.length suffix)%nat
            (String.length suffix) t).
  destruct (Nat.leb_spec (String.length suffix) (String.length t)); [|lia].
  destruct (Nat.leb_spec (String.length suffix) (S (String.length t))); [|lia].
  done.
Qed.

Lemma length_app_ge (q s : string) :
  (String.length s <= String.length (q ++ s))%nat.
Proof.
  induction q as [|c q IH]; [done|].
  change (String.length (String c q ++ s)) with (S (String.length (q ++ s))).
  lia.
Qed.

(** Whether a text ends with a suffix is decided by its last characters. *)
Lemma endswith_app (q s suffix : string) :
  (String.length suffix <= String.length s)%nat ->
  endswith (q ++ s) suffix = endswith s suffix.
Proof.
  intros Hlen. induction q as [|c q IH]; [done|].
  rewrite <- IH. apply endswith_cons.
  pose proof (length_app_ge q s). lia.
Qed.

(** One readable file: the loop of lines 208-216 has the outcome of the
    parser chosen by the end of the path. *)
Lemma load_config_readable (h : Host) (p content : string) (w : world) :
  open_read p w = (Ok content, w) ->
  load_config h (VStr p) w = (parse_by_suffix h p content, w).
Proof.
  intros Hopen. unfold load_config, parse_by_suffix.
  rewrite (bind_Ok _ _ w w content Hopen).
  destruct (endswith p "json"); [done|]. by destruct (endswith p "yml").
Qed.

(** Reading depends on the files only. *)
Lemma open_read_files (text : string) (w w2 : world) (r : result string) :
  open_read text w = (r, w) -> files w2 = files w ->
  open_read text w2 = (r, w2).
Proof.
  intros Hopen Hf.
  rewrite (files_only_run _ w w2 (files_only_open_read text) Hf).
  by rewrite Hopen.
Qed.

(** Induction on a document and on a tree, through their lists. *)
Lemma document_induction (P : document -> Prop) :
  (forall v, P (Scalar v)) ->
  (forall items, Forall P items -> P (Sequence items)) ->
  (forall pairs, Forall (fun kv => P (snd kv)) pairs -> P (Mapping pairs)) ->
  forall t, P t.
Proof.
  intros Hscalar Hsequence Hmapping. fix IH 1. intros [v|items|pairs].
  - apply Hscalar.
  - apply Hsequence. induction items as [|x items IHitems]; constructor.
    + apply IH.
    + apply IHitems.
  - apply Hmapping. induction pairs as [|[k x] pairs IHpairs]; constructor.
    + apply IH.
    + apply IHpairs.
Qed.

Lemma yaml_node_induction (P : yaml_node -> Prop) :
  (forall v, P (ScalarNode v)) ->
  (forall items, Forall P items -> P (SequenceNode items)) ->
  (forall pairs, Forall (fun kv => P (snd kv)) pairs -> P (MappingNode pairs)) ->
  forall node, P node.
Proof.
  intros Hscalar Hsequence Hmapping. fix IH 1. intros [v|items|pairs].
  - apply Hscalar.
  - apply Hsequence. induction items as [|x items IHitems]; constructor.
    + apply IH.
    + apply IHitems.
  - apply Hmapping. induction pairs as [|[k x] pairs IHpairs]; constructor.
    + apply IH.
    + apply IHpairs.
Qed.

(** Inserting pairs of new, distinct keys appends them. *)
Lemma fold_dict_set_distinct (pairs : list (string * value)) :
  NoDup (map fst pairs) ->
  forall d,
    (forall k, k ∈ map fst pairs -> dict_get d k = None) ->
    fold_left (fun d kv => dict_set d (fst kv) (snd kv)) pairs d
    = (d ++ pairs)%list.
Proof.
  induction pairs as [|[k v] rest IH]; intros Hnd d Hd; simpl.
  - by rewrite app_nil_r.
  - simpl in Hnd. apply NoDup_cons in Hnd as [Hk Hnd].
    rewrite dict_set_absent by (apply Hd; simpl; left).
    rewrite IH; [by rewrite <- app_assoc | done |].
    intros k' Hk'. apply dict_get_None_keys. rewrite map_app. simpl.
    intros Hin. apply elem_of_app in Hin as [Hin|Hin].
    + revert Hin. apply dict_get_None_keys, Hd. simpl. by right.
    + apply list_elem_of_singleton in Hin as ->. done.
Qed.

(** [OrderedDict] keeps pairs of distinct keys as they are, in their
    order. *)
Lemma OrderedDict_distinct (pairs : list (string * value)) :
  NoDup (map fst pairs) -> OrderedDict pairs = pairs.
Proof. intros Hnd. unfold OrderedDict. by rewrite fold_dict_set_distinct. Qed.

(** The keys of an [OrderedDict] are distinct. *)
Lemma OrderedDict_NoDup (pairs : list (string * value)) :
  NoDup (map fst (OrderedDict pairs)).
Proof.
  unfold OrderedDict.
  assert (H : forall d, NoDup (map fst d) ->
    NoDup (map fst (fold_left (fun d kv => dict_set d (fst kv) (snd kv)) pairs d))).
  { induction pairs as [|[k v] rest IH]; intros d Hd; simpl; [done|].
    by apply IH, dict_set_NoDup. }
  apply H. constructor.
Qed.

(** In an [OrderedDict] a key has the value of its last pair. *)
Lemma OrderedDict_lookup (pairs : list (string * value)) (k : string) :
  dict_get (OrderedDict pairs) k = dict_get (rev pairs) k.
Proof.
  unfold OrderedDict.
  assert (H : forall d,
    dict_get (fold_left (fun d kv => dict_set d (fst kv) (snd kv)) pairs d) k
    = match dict_get (rev pairs) k with
      | Some v => Some v
      | None => dict_get d k
      end).
  { induction pairs as [|[k0 v0] rest IH]; intros d; simpl; [done|].
    rewrite IH. clear IH.
    assert (Happ : forall a b : dict,
      dict_get (a ++ b)%list k
      = match dict_get a k with Some v => Some v | None => dict_get b k end).
    { intros a b. induction a as [|[k1 v1] a IHa]; simpl; [done|].
      by destruct (String.eqb k1 k). }
    rewrite Happ. destruct (dict_get (rev rest) k); [done|]. simpl.
    destruct (String.eqb k0 k) eqn:E.
    - apply String.eqb_eq in E as ->. apply dict_get_set_eq.
    - apply String.eqb_neq in E. by apply dict_get_set_ne. }
  rewrite H. by destruct (dict_get (rev pairs) k).
Qed.

(** A document without repeated keys is loaded as it is written: every
    mapping of the tree has the keys of the document in their order. *)
Lemma construct_distinct (t : document) :
  distinct_keys t = true -> construct t = literal t.
Proof.
  induction t as [v|items IH|pairs IH] using document_induction; simpl.
  - done.
  - intros Hd. f_equal. induction IH as [|x items Hx _ IHitems]; [done|].
    simpl in Hd. apply andb_true_iff in Hd as [Hd1 Hd2]. simpl.
    by rewrite Hx, IHitems.
  - intros [Hnd Hd]%andb_true_iff. apply bool_decide_eq_true in Hnd. f_equal.
    assert (Hmap :
      map (fun kv : string * document => let '(k, x) := kv in (k, construct x))
        pairs
      = map (fun kv : string * document => let '(k, x) := kv in (k, literal x))
          pairs).
    { clear Hnd. induction IH as [|[k x] pairs Hx _ IHpairs]; [done|].
      simpl in Hd. apply andb_true_iff in Hd as [Hd1 Hd2]. simpl in *.
      by rewrite Hx, IHpairs. }
    rewrite Hmap. apply OrderedDict_distinct.
    rewrite map_map. erewrite map_ext; [exact Hnd|]. by intros [k x].
Qed.

(** A tree without merge keys is flattened into the document of its own
    pairs. *)
Lemma flatten_mapping_merge_free (node : yaml_node) :
  merge_free node = true -> flatten_mapping node = Ok (unmerged node).
Proof.
  induction node as [v|items IH|pairs IH] using yaml_node_induction.
  - done.
  - intros Hm. cbn [flatten_mapping unmerged merge_free] in *.
    match goal with
    | |- match ?e with _ => _ end = _ =>
        assert (He : e = Ok (map unmerged items)); [|by rewrite He]
    end.
    induction IH as [|x items Hx _ IHitems]; [done|].
    simpl in Hm. apply andb_true_iff in Hm as [Hm1 Hm2].
    rewrite (Hx Hm1), (IHitems Hm2). done.
  - intros Hm. cbn [flatten_mapping unmerged merge_free] in *.
    match goal with
    | |- match ?e with _ => _ end = _ =>
        assert (He : e = Ok ([], omap (fun kv : yaml_key * yaml_node =>
                             let '(k, x) := kv in
                             match k with
                             | Key s => Some (s, unmerged x)
                             | MergeKey => None
                             end) pairs)); [|by rewrite He]
    end.
    induction IH as [|[[s|] x] pairs Hx _ IHpairs]; [done| |].
    + simpl in Hm. apply andb_true_iff in Hm as [Hm1 Hm2].
      simpl in Hx. rewrite (Hx Hm1), (IHpairs Hm2). done.
    + done.
Qed.

(** One readable path at the head of the list (lines 208-216). *)
Lemma load_configs_readable (h : Host) (config : dict) (p content : string)
  (rest : list value) (w : world) :
  open_read p w = (Ok content, w) ->
  load_configs h config (VStr p :: rest) w
  = match parse_by_suffix h p content with
    | Ok (VDict d) => load_configs h (merge_dicts config d) rest w
    | Ok c =>
        (Raise (AttributeError
                  ("'" ++ type_name c ++ "' object has no attribute 'items'")), w)
    | Raise e => (Raise e, w)
    end.
Proof.
  intros Hopen. cbn [load_configs]. unfold bind.
  rewrite (load_config_readable h p content w Hopen).
  by destruct (parse_by_suffix h p content) as [[]|].
Qed.

(** The loop over a list of paths goes on after the paths that load. *)
Lemma load_configs_app (h : Host) (pre rest : list value) :
  forall (config c : dict) (w : world),
    fst (load_configs h config pre w) = Ok c ->
    load_configs h config (pre ++ rest) w = load_configs h c rest w.
Proof.
  induction pre as [|x pre IH]; intros config c w.
  - by intros [= ->].
  - cbn [load_configs app]. unfold bind.
    destruct (files_only_load_config h x w) as [Hw _].
    destruct (load_config h x w) as [[v|e] w'] eqn:E; simpl in Hw; subst w';
      [|done].
    destruct v; try done. apply IH.
Qed.

(** C3, as amended.  For a configuration path that [open] can read: the
    parser is chosen by the end of the path, [json] first and [yml] second,
    and the loop goes on with the merged tree; the tree of a JSON document,
    and of a YAML document without merge keys, has at every mapping the keys
    of the document in their order when the document repeats no key; a path
    with another end, every path that ends with [.yaml] included, makes
    [parse_args_uargs] raise the plain [Exception] with the message
    [Unknown file format], wherever it stands in the list after paths that
    load, after the copy of the namespace was made. *)
Theorem config_format_by_suffix (h : Host) (p content : string) (w : world) :
  open_read p w = (Ok content, w) ->
  (forall config rest,
      load_configs h config (VStr p :: rest) w
      = match parse_by_suffix h p content with
        | Ok (VDict d) => load_configs h (merge_dicts config d) rest w
        | Ok c =>
            (Raise (AttributeError
                      ("'" ++ type_name c ++ "' object has no attribute 'items'")),
             w)
        | Raise e => (Raise e, w)
        end)
  /\ (forall d,
        parse_by_suffix h p content = Ok (VDict d) -> NoDup (map fst d) ->
        load_configs h [] [VStr p] w = (Ok d, w))
  /\ (endswith p "json" = true ->
      forall t,
        json_parse h content = Ok t ->
        parse_by_suffix h p content = Ok (construct t)
        /\ (distinct_keys t = true -> construct t = literal t))
  /\ (endswith p "json" = false -> endswith p "yml" = true ->
      forall node,
        yaml_compose h content = Ok (Some node) -> merge_free node = true ->
        parse_by_suffix h p content = Ok (construct (unmerged node))
        /\ (distinct_keys (unmerged node) = true ->
            construct (unmerged node) = literal (unmerged node)))
  /\ ((endswith p "json" = false /\ endswith p "yml" = false)
      \/ (exists q, p = q ++ ".yaml") ->
      forall args ns pre post c unknown_args,
        heap w !! args = Some ns ->
        ns !! "configs" = Some (VList (pre ++ VStr p :: post)) ->
        fst (load_configs h [] pre w) = Ok c ->
        parse_args_uargs h args unknown_args w
        = (Raise (Exn "Exception" "Unknown file format"),
           set_heap (fun hp => (hp ++ [ns])%list) w)).
Proof.
  intros Hopen. split_and!.
  - intros config rest. by apply load_configs_readable.
  - intros d Hparse Hnd.
    rewrite (load_configs_readable h [] p content [] w Hopen), Hparse.
    cbn [load_configs]. by rewrite merge_dicts_empty.
  - intros Hjson t Hparse. unfold parse_by_suffix, json_load.
    rewrite Hjson, Hparse. split; [done | apply construct_distinct].
  - intros Hjson Hyml node Hcompose Hfree.
    unfold parse_by_suffix, load_ordered_yaml, construct_mapping.
    rewrite Hjson, Hyml, Hcompose, (flatten_mapping_merge_free node Hfree).
    split; [done | apply construct_distinct].
  - intros Hend args ns pre post c unknown_args Hargs Hconfigs Hpre.
    assert (Hjson : endswith p "json" = false /\ endswith p "yml" = false).
    { destruct Hend as [Hend|[q ->]]; [done|].
      by rewrite !endswith_app by (simpl; lia). }
    destruct Hjson as [Hjson Hyml].
    set (w1 := set_heap (fun hp => (hp ++ [ns])%list) w).
    assert (Hn : heap w1 !! List.length (heap w) = Some ns)
      by (by apply list_lookup_middle).
    unfold parse_args_uargs.
    rewrite (bind_Ok _ _ w w1 (List.length (heap w))).
    2:{ unfold deepcopy, bind, getattrs. by rewrite Hargs. }
    rewrite (bind_Ok _ _ w1 w1 (VList (pre ++ VStr p :: post))).
    2:{ unfold getattr, bind, getattrs. by rewrite Hn, Hconfigs. }
    rewrite (bind_Ok _ _ w1 w1 (pre ++ VStr p :: post)%list) by done.
    apply bind_Raise.
    assert (Hpre1 : fst (load_configs h [] pre w1) = Ok c).
    { rewrite <- Hpre.
      by apply (files_only_load_configs h pre [] w). }
    rewrite (load_configs_app h pre _ [] c w1 Hpre1).
    rewrite (load_configs_readable h c p content post w1)
      by (by apply (open_read_files p w w1)).
    unfold parse_by_suffix. by rewrite Hjson, Hyml.
Qed.

Lemma config_format_by_suffix_example :
  open_read "exp/config.yml" world_logdir
  = (Ok (text_of (VDict config_logdir)), world_logdir)
  /\ load_configs host1 [] [VStr "exp/config.yml"] world_logdir
     = (Ok config_logdir, world_logdir)
  /\ parse_by_suffix host1 "exp/config.yml" (text_of (VDict config_logdir))
     = Ok (literal (unmerged (as_node (VDict config_logdir)))).
Proof.
  assert (Hopen : open_read "exp/config.yml" world_logdir
                  = (Ok (text_of (VDict config_logdir)), world_logdir))
    by reflexivity.
  split; [exact Hopen|].
  destruct (config_format_by_suffix host1 "exp/config.yml"
              (text_of (VDict config_logdir)) world_logdir Hopen)
    as (_ & Hone & _ & Hyml & _).
  split.
  - apply Hone; [reflexivity|].
    apply (bool_decide_unpack _). vm_compute. exact I.
  - destruct (Hyml eq_refl eq_refl (as_node (VDict config_logdir)))
      as [Hparse Hliteral]; [reflexivity | reflexivity |].
    by rewrite Hparse, (Hliteral eq_refl).
Defined.

(** C3, as stated, fails on a path that ends with [.yaml]: the file is not
    parsed, and the exception raised is of the class [Exception]. *)
Lemma yaml_suffix_counterexample :
  parse_args_uargs host1 0%nat [] world_yaml
  = (Raise (Exn "Exception" "Unknown file format"),
     World [args_yaml; args_yaml] (files world_yaml) [] []).
Proof. vm_compute. reflexivity. Qed.

(** ** The environment snapshot *)










(** Outside a checkout [git] exits with a non-zero status, and the snapshot
    is returned without the entry [git]. *)
Lemma get_environment_vars_no_checkout (h : Host) (w : world) (e : exn) :
  check_output h ["git"; "rev-parse"; "--abbrev-ref"; "HEAD"] = Raise e ->
  exn_class e = "CalledProcessError" ->
  exists env,
    get_environment_vars h w = (Ok env, w) /\ dict_get env "git" = None.
Proof.
  intros Hgit Hclass. unfold get_environment_vars.
  destruct (uname h) as [[[[sysname nodename] release] version] machine].
  eexists. unfold bind at 1. unfold try_except. unfold bind at 1, lift at 1.
  rewrite Hgit, Hclass. simpl. split; reflexivity.
Qed.

(** C4.  The [try] of lines 85-103 catches [CalledProcessError] only: any
    other exception of the first [git] call, such as the [FileNotFoundError]
    that [subprocess] raises when the [git] executable is not installed, is
    the outcome of [get_environment_vars]. *)
Theorem git_failure_is_fatal (h : Host) (w : world) (e : exn) :
  check_output h ["git"; "rev-parse"; "--abbrev-ref"; "HEAD"] = Raise e ->
  exn_class e <> "CalledProcessError" ->
  get_environment_vars h w = (Raise e, w).
Proof.
  intros Hgit Hclass. apply String.eqb_neq in Hclass.
  unfold get_environment_vars.
  destruct (uname h) as [[[[sysname nodename] release] version] machine].
  apply bind_Raise. unfold try_except. unfold bind at 1, lift at 1.
  by rewrite Hgit, Hclass.
Qed.

Lemma git_failure_is_fatal_example :
  (check_output (sample_host [] git_missing)
     ["git"; "rev-parse"; "--abbrev-ref"; "HEAD"]
   = Raise (FileNotFoundError "[Errno 2] No such file or directory: 'git': 'git'")
   /\ "FileNotFoundError" <> "CalledProcessError")
  /\ get_environment_vars (sample_host [] git_missing) (world_of ∅ ∅)
     = (Raise (FileNotFoundError
                 "[Errno 2] No such file or directory: 'git': 'git'"),
        world_of ∅ ∅).
Proof.
  split; [split; [reflexivity | discriminate]|].
  apply (git_failure_is_fatal (sample_host [] git_missing) (world_of ∅ ∅));
    [reflexivity | discriminate].
Defined.

(** ** Directories and files *)










(** * Further properties *)

(** ** The shape of an override token *)

Lemma split_on_nonempty (c : ascii) (s : string) : split_on c s <> [].
Proof.
  induction s as [|x s IH]; [done|]. simpl.
  destruct (Ascii.eqb x c); [done|]. by destruct (split_on c s).
Qed.

(** Every occurrence of the separator starts a new part. *)
Lemma split_on_app_sep (c : ascii) (a b : string) :
  split_on c (a ++ String c b) = (split_on c a ++ split_on c b)%list.
Proof.
  induction a as [|x a IH]; simpl.
  - by rewrite Ascii.eqb_refl.
  - rewrite IH. destruct (Ascii.eqb x c); [done|].
    pose proof (split_on_nonempty c a). by destruct (split_on c a).
Qed.

(** A token without [=] raises the [ValueError] of the first unpacking
    (line 150); nothing is evaluated or stored, and the tokens after it are
    not read. *)
Theorem token_without_equals_raises (h : Host) (config : dict) (args : loc)
  (arg : string) (rest : list string) (w : world) :
  contains "="%char arg = false ->
  parse_config_args h config args (arg :: rest) w
  = (Raise (ValueError "not enough values to unpack (expected 2, got 1)"), w).
Proof.
  intros Harg. apply parse_config_args_raise.
  unfold apply_override, bind, lift. by rewrite (split_on_no_sep _ _ Harg).
Qed.

Lemma token_without_equals_raises_example :
  contains "="%char "--verbose" = false
  /\ parse_config_args host1 [] 0%nat ["--verbose"; "--x=1:int"] (world_of ∅ ∅)
     = (Raise (ValueError "not enough values to unpack (expected 2, got 1)"),
        world_of ∅ ∅).
Proof.
  split; [reflexivity|].
  by apply (token_without_equals_raises host1 [] 0%nat "--verbose").
Defined.

(** A token with two [=] or more raises the [ValueError] of the first
    unpacking, whatever stands around them: a value cannot contain [=]. *)
Theorem token_with_two_equals_raises (h : Host) (config : dict) (args : loc)
  (a b c : string) (rest : list string) (w : world) :
  parse_config_args h config args
    ((a ++ String "="%char (b ++ String "="%char c)) :: rest) w
  = (Raise (ValueError "too many values to unpack (expected 2)"), w).
Proof.
  apply parse_config_args_raise. unfold apply_override, bind, lift.
  rewrite !split_on_app_sep.
  pose proof (split_on_nonempty "="%char a) as Ha.
  pose proof (split_on_nonempty "="%char b) as Hb.
  pose proof (split_on_nonempty "="%char c) as Hc.
  destruct (split_on "="%char a) as [|a1 [|a2 la]]; [done|..];
    destruct (split_on "="%char b) as [|b1 lb]; try done;
    destruct (split_on "="%char c) as [|c1 lc]; try done.
  - by destruct lb.
  - by destruct la.
Qed.

(** A leading dash changes nothing for a token that is not evaluated: it
    has the same outcome with any number of dashes in front of it.  (A token
    that is evaluated may read itself through the name [arg].) *)
Theorem leading_dash_is_ignored (h : Host) (args : loc)
  (unknown_args : list string) (config : dict) (arg : string) (w : world) :
  is_evaluated arg = false ->
  apply_override h args unknown_args config (String "-"%char arg) w
  = apply_override h args unknown_args config arg w.
Proof.
  unfold is_evaluated, apply_override.
  change (split_on "="%char (String "-"%char arg))
    with (match split_on "="%char arg with
          | [] => [String "-"%char EmptyString]
          | x :: xs => String "-"%char x :: xs
          end).
  pose proof (split_on_nonempty "="%char arg) as Hne.
  destruct (split_on "="%char arg) as [|x [|y [|z l]]]; try done.
  simpl unpack2. unfold bind, lift. cbv beta iota.
  destruct (rsplit1 ":"%char y) as [[value_content value_type]|]; [|done].
  intros Hev%negb_false_iff. simpl unpack2. cbv beta iota. by rewrite Hev.
Qed.

Lemma leading_dash_is_ignored_example :
  is_evaluated "-lr=3:str" = false
  /\ apply_override host1 0%nat ["--lr=3:str"] [] "--lr=3:str" (world_of ∅ ∅)
     = apply_override host1 0%nat ["--lr=3:str"] [] "-lr=3:str" (world_of ∅ ∅).
Proof.
  split; [reflexivity|].
  apply (leading_dash_is_ignored host1 0%nat ["--lr=3:str"] [] "-lr=3:str"
           (world_of ∅ ∅)). reflexivity.
Defined.

(** A value of type [str] is never evaluated: the token leaves the record
    of evaluated texts as it is, whatever its name and its text. *)
Theorem str_token_is_not_evaluated (h : Host) (args : loc) (config : dict)
  (arg name value content : string) (w : world) (unknown_args : list string) :
  unpack2 (split_on "="%char arg) = Ok (name, value) ->
  rsplit1 ":"%char value = Some (content, "str") ->
  evaluated (snd (apply_override h args unknown_args config arg w))
  = evaluated w.
Proof.
  intros Hsplit Hvalue. unfold apply_override, bind, lift.
  rewrite Hsplit, Hvalue. simpl unpack2. cbv beta iota.
  change (String.eqb "str" "str") with true. cbv iota.
  destruct (contains _ _).
  - destruct (String.eqb (lower content) "none"); unfold ret;
      by destruct (set_path _ _ _).
  - unfold ret, setattr, bind, getattrs. by destruct (heap w !! args).
Qed.

Lemma str_token_is_not_evaluated_example :
  (unpack2 (split_on "="%char "--a/b=print(1):str") = Ok ("--a/b", "print(1):str")
   /\ rsplit1 ":"%char "print(1):str" = Some ("print(1)", "str"))
  /\ evaluated (snd (apply_override host1 0%nat ["--a/b=print(1):str"] []
                       "--a/b=print(1):str" (world_of ∅ ∅))) = [].
Proof.
  split; [by split|].
  by apply (str_token_is_not_evaluated host1 0%nat [] "--a/b=print(1):str"
              "--a/b" "print(1):str" "print(1)").
Defined.



(** ** Overrides of the configuration tree *)

(** With a slash in the name a value of type [str] is bound at the end of
    the path in a world left as it is: [None] when the text reads [none] in
    any letter case, the text itself otherwise. *)
Theorem str_token_under_slash (h : Host) (args : loc) (config config' : dict)
  (arg name value content : string) (w w' : world)
  (unknown_args : list string) :
  unpack2 (split_on "="%char arg) = Ok (name, value) ->
  rsplit1 ":"%char value = Some (content, "str") ->
  contains "/"%char (strip "/"%char (lstrip "-"%char name)) = true ->
  apply_override h args unknown_args config arg w = (Ok config', w') ->
  w' = w
  /\ get_path config' (split_on "/"%char (strip "/"%char (lstrip "-"%char name)))
     = Some (if String.eqb (lower content) "none" then VNone else VStr content).
Proof.
  intros Hsplit Hvalue Hslash. unfold apply_override, bind, lift.
  rewrite Hsplit, Hvalue. simpl unpack2. cbv beta iota. rewrite Hslash.
  change (String.eqb "str" "str") with true. cbv iota.
  destruct (String.eqb (lower content) "none"); unfold ret;
    destruct (set_path _ _ _) as [c|e] eqn:E; try done;
    intros [= <- <-]; (split; [done|]);
    by apply (set_path_get_path _ _ (split_on_nonempty _ _) config).
Qed.

Lemma str_token_under_slash_example :
  (unpack2 (split_on "="%char "--/stages/train/resume=NoNe:str")
   = Ok ("--/stages/train/resume", "NoNe:str")
   /\ rsplit1 ":"%char "NoNe:str" = Some ("NoNe", "str")
   /\ contains "/"%char
        (strip "/"%char (lstrip "-"%char "--/stages/train/resume")) = true
   /\ apply_override host1 0%nat ["--/stages/train/resume=NoNe:str"]
        [("stages", VDict [("infer", VDict [])])]
        "--/stages/train/resume=NoNe:str" (world_of ∅ ∅)
      = (Ok [("stages", VDict [("infer", VDict []);
                               ("train", VDict [("resume", VNone)])])],
         world_of ∅ ∅))
  /\ get_path [("stages", VDict [("infer", VDict []);
                                 ("train", VDict [("resume", VNone)])])]
       ["stages"; "train"; "resume"] = Some VNone.
Proof.
  split; [by split_and!|].
  by apply (str_token_under_slash host1 0%nat
              [("stages", VDict [("infer", VDict [])])] _
              "--/stages/train/resume=NoNe:str" "--/stages/train/resume"
              "NoNe:str" "NoNe" (world_of ∅ ∅) (world_of ∅ ∅)
              ["--/stages/train/resume=NoNe:str"]).
Defined.

Lemma setitem_error_class (c : value) : exn_class (setitem_error c) = "TypeError".
Proof. by destruct c. Qed.

Lemma descend_error_class (k : string) (c : value) :
  exn_class (descend_error k c) = "TypeError".
Proof. destruct c; try done. simpl. by destruct (is_substring k s). Qed.

(** A path cannot go through a value that is not a tree: when a proper
    prefix of the path leads to such a value, the override raises a
    [TypeError]. *)
Theorem set_path_through_non_tree (pre : list string) :
  forall (config : dict) (rest : list string) (c v : value),
    get_path config pre = Some c ->
    is_dict c = false ->
    rest <> [] ->
    exists e, set_path config (pre ++ rest)%list v = Raise e
              /\ exn_class e = "TypeError".
Proof.
  induction pre as [|n pre IH]; intros config rest c v Hget Hc Hrest; [done|].
  destruct pre as [|k pre].
  - simpl in Hget. destruct rest as [|k rest]; [done|].
    change ([n] ++ k :: rest)%list with (n :: k :: rest).
    rewrite set_path_cons, Hget.
    destruct c; try done; eexists; (split; [reflexivity|]);
      destruct rest; auto using setitem_error_class, descend_error_class.
  - rewrite get_path_cons in Hget.
    destruct (dict_get config n) as [[| | | | | | |d]|] eqn:En; try done.
    destruct (IH d rest c v Hget Hc Hrest) as (e & He & Hclass).
    exists e. split; [|done].
    change ((n :: k :: pre) ++ rest)%list with (n :: k :: (pre ++ rest))%list.
    rewrite set_path_cons, En.
    change (k :: (pre ++ rest))%list with ((k :: pre) ++ rest)%list.
    by rewrite He.
Qed.

Lemma set_path_through_non_tree_example :
  (get_path [("model", VDict [("lr", VInt 1)])] ["model"; "lr"] = Some (VInt 1)
   /\ is_dict (VInt 1) = false
   /\ ["decay"] <> [])
  /\ exists e,
       set_path [("model", VDict [("lr", VInt 1)])] ["model"; "lr"; "decay"]
         (VInt 2) = Raise e
       /\ exn_class e = "TypeError".
Proof.
  split; [by split_and!|].
  exact (set_path_through_non_tree ["model"; "lr"]
           [("model", VDict [("lr", VInt 1)])] ["decay"] (VInt 1) (VInt 2)
           eq_refl eq_refl ltac:(discriminate)).
Defined.

(** Of two overrides of the same path the last wins: after the first, the
    second has the outcome it has without the first. *)
Theorem set_path_last_wins (arg_names : list string) (v1 v2 : value) :
  forall config config1,
    set_path config arg_names v1 = Ok config1 ->
    set_path config1 arg_names v2 = set_path config arg_names v2.
Proof.
  induction arg_names as [|n rest IH]; intros config config1.
  - by intros [= <-].
  - destruct rest as [|k rest].
    + simpl. intros [= <-]. by rewrite dict_set_set.
    + rewrite !set_path_cons.
      destruct (match dict_get config n with Some c => c | None => VDict [] end)
        as [| | | | | | |d]; try done.
      destruct (set_path d (k :: rest) v1) as [d1|e] eqn:E1; [|done].
      intros [= <-]. rewrite dict_get_set_eq, (IH d d1 E1).
      destruct (set_path d (k :: rest) v2); [|done]. by rewrite dict_set_set.
Qed.

Lemma set_path_last_wins_example :
  set_path [("seed", VInt 1)] ["model"; "lr"] (VInt 1)
  = Ok [("seed", VInt 1); ("model", VDict [("lr", VInt 1)])]
  /\ set_path [("seed", VInt 1); ("model", VDict [("lr", VInt 1)])]
       ["model"; "lr"] (VInt 2)
     = Ok [("seed", VInt 1); ("model", VDict [("lr", VInt 2)])].
Proof.
  split; [reflexivity|].
  exact (eq_trans
           (set_path_last_wins ["model"; "lr"] (VInt 1) (VInt 2)
              [("seed", VInt 1)]
              [("seed", VInt 1); ("model", VDict [("lr", VInt 1)])] eq_refl)
           eq_refl).
Defined.

(** An override keeps the order of the keys of the tree: the keys are the
    same when the first segment is one of them, and that segment comes last
    when it is new. *)
Theorem set_path_keeps_key_order (arg_names : list string) (v : value)
  (config config' : dict) (n : string) :
  head arg_names = Some n ->
  set_path config arg_names v = Ok config' ->
  map fst config'
  = if dict_mem config n then map fst config else (map fst config ++ [n])%list.
Proof.
  destruct arg_names as [|n0 [|k rest]]; [done|..]; intros [= ->].
  - simpl. intros [= <-]. apply dict_set_keys.
  - rewrite set_path_cons.
    destruct (match dict_get config n with Some c => c | None => VDict [] end)
      as [| | | | | | |d]; try done.
    destruct (set_path d (k :: rest) v); [|done].
    intros [= <-]. apply dict_set_keys.
Qed.

Lemma set_path_keeps_key_order_example :
  (head ["b"; "x"] = Some "b"
   /\ set_path [("a", VInt 1); ("b", VDict []); ("c", VInt 3)] ["b"; "x"] (VInt 2)
      = Ok [("a", VInt 1); ("b", VDict [("x", VInt 2)]); ("c", VInt 3)])
  /\ map fst [("a", VInt 1); ("b", VDict [("x", VInt 2)]); ("c", VInt 3)]
     = ["a"; "b"; "c"].
Proof.
  split; [by split|].
  exact (set_path_keeps_key_order ["b"; "x"] (VInt 2)
           [("a", VInt 1); ("b", VDict []); ("c", VInt 3)]
           [("a", VInt 1); ("b", VDict [("x", VInt 2)]); ("c", VInt 3)] "b"
           eq_refl eq_refl).
Defined.

(** ** The attributes copied into [config["args"]] *)

Lemma stored_cases (k : string) (v : value) :
  stored k v = false ->
  is_none v = true \/ (is_none v = false /\ is_logdir_key k && is_empty_str v = true).
Proof.
  unfold stored. destruct (is_none v); [by left|]. simpl.
  destruct (is_logdir_key k && is_empty_str v); [by right | done].
Qed.

(** When [config["args"]] is bound to a value that is not a tree, the first
    stored attribute makes the loop of lines 184-188 raise. *)
Lemma store_args_non_dict (items : dict) :
  forall (config : dict) (c : value),
    dict_get config "args" = Some c ->
    is_dict c = false ->
    (exists k v, dict_get items k = Some v /\ stored k v = true) ->
    store_args items config = Raise (setitem_error c).
Proof.
  induction items as [|[key value] rest IH]; intros config c Hargs Hc (k & v & Hk & Hs).
  - done.
  - cbn [store_args]. destruct (stored key value) eqn:Hkey.
    + unfold stored in Hkey. apply andb_true_iff in Hkey as [Hn He].
      apply negb_true_iff in Hn, He. rewrite Hn, He, Hargs. by destruct c.
    + assert (Hrest : exists k v, dict_get rest k = Some v /\ stored k v = true).
      { exists k, v. split; [|done]. cbn [dict_get] in Hk.
        destruct (String.eqb key k) eqn:E; [|done].
        apply String.eqb_eq in E as ->. injection Hk as ->. congruence. }
      destruct (stored_cases _ _ Hkey) as [-> | [-> ->]]; by apply IH.
Qed.

Lemma ensure_args_lookup (config : dict) :
  exists v, dict_get (ensure_args config) "args" = Some v /\ is_none v = false.
Proof.
  unfold ensure_args. destruct (dict_get config "args") as [v|] eqn:E.
  - destruct v; try (by exists (VDict []); rewrite dict_get_set_eq);
      by eexists; split; [exact E|].
  - exists (VDict []). by rewrite dict_get_set_eq.
Qed.

(** Whatever the configuration and the tokens, when [parse_config_args]
    returns, every stored attribute of the namespace, as the tokens left it,
    is bound to the same value in the tree [config["args"]]. *)
Theorem parse_config_args_stores_attributes (h : Host) (config config' : dict)
  (args a : loc) (unknown_args : list string) (w w' : world) :
  parse_config_args h config args unknown_args w = (Ok (config', a), w') ->
  exists ns',
    heap w' !! args = Some ns'
    /\ forall k v,
         ns' !! k = Some v -> stored k v = true ->
         exists d, dict_get config' "args" = Some (VDict d)
                   /\ dict_get d k = Some v.
Proof.
  unfold parse_config_args. intros Hrun.
  apply bind_Ok_inv in Hrun as (c1 & w1 & _ & Hrun).
  apply bind_Ok_inv in Hrun as (ns' & w2 & Hns & Hrun).
  apply bind_Ok_inv in Hrun as (c2 & w3 & Hstore & Hret).
  unfold ret in Hret. injection Hret as <- _ <-.
  unfold getattrs in Hns. destruct (heap w1 !! args) as [ns0|] eqn:Hargs; [|done].
  injection Hns as <- <-.
  unfold lift in Hstore. injection Hstore as Hstore <-.
  exists ns0. split; [done|]. intros k v Hk Hs.
  destruct (ensure_args_lookup c1) as (x & Hx & Hnone).
  destruct (is_dict x) eqn:Hdict.
  - destruct x as [| | | | | | |d0]; try done.
    destruct (store_args_spec _ (_get_kwargs_NoDup ns0) _ _ Hx)
      as (d & Hd & _ & Hget).
    rewrite Hd in Hstore. injection Hstore as <-.
    exists d. split; [apply dict_get_set_eq|].
    by rewrite Hget, _get_kwargs_lookup, Hk, Hs.
  - rewrite (store_args_non_dict _ _ x Hx Hdict) in Hstore; [done|].
    exists k, v. by rewrite _get_kwargs_lookup.
Qed.

Lemma parse_config_args_stores_attributes_example :
  parse_config_args host1 [("args", VDict [("seed", VInt 1)])] 0%nat
    ["--seed=7:int"]
    (world_of {[ "seed" := VNone; "logdir" := VStr "" ]} ∅)
  = (Ok ([("args", VDict [("seed", VInt 7)])], 0%nat),
     World [ {[ "seed" := VInt 7; "logdir" := VStr "" ]} ] ∅ ["int(7)"] [])
  /\ exists ns',
       [ ({[ "seed" := VInt 7; "logdir" := VStr "" ]} : namespace) ] !! 0%nat
       = Some ns'
       /\ forall k v,
            ns' !! k = Some v -> stored k v = true ->
            exists d, dict_get [("args", VDict [("seed", VInt 7)])] "args"
                      = Some (VDict d)
                      /\ dict_get d k = Some v.
Proof.
  assert (Hrun :
    parse_config_args host1 [("args", VDict [("seed", VInt 1)])] 0%nat
      ["--seed=7:int"]
      (world_of {[ "seed" := VNone; "logdir" := VStr "" ]} ∅)
    = (Ok ([("args", VDict [("seed", VInt 7)])], 0%nat),
       World [ {[ "seed" := VInt 7; "logdir" := VStr "" ]} ] ∅ ["int(7)"] []))
    by (vm_compute; reflexivity).
  split; [exact Hrun|].
  exact (parse_config_args_stores_attributes host1 _ _ 0%nat 0%nat _ _ _ Hrun).
Defined.

(** A configuration that binds [args] to a value that is neither a tree nor
    [None] cannot take the attributes: with a stored attribute in the
    namespace, [parse_config_args] raises the [TypeError] of the item
    assignment. *)
Theorem parse_config_args_args_not_a_tree (h : Host) (config : dict)
  (args : loc) (ns : namespace) (w : world) (c v : value) (k : string) :
  dict_get config "args" = Some c ->
  is_dict c = false ->
  is_none c = false ->
  heap w !! args = Some ns ->
  ns !! k = Some v ->
  stored k v = true ->
  parse_config_args h config args [] w = (Raise (setitem_error c), w)
  /\ exn_class (setitem_error c) = "TypeError".
Proof.
  intros Hargs Hdict Hnone Hns Hk Hs. split; [|apply setitem_error_class].
  unfold parse_config_args. cbn [apply_overrides].
  rewrite (bind_Ok _ _ w w config) by done.
  rewrite (bind_Ok _ _ w w ns) by (by unfold getattrs; rewrite Hns).
  apply bind_Raise. unfold lift. f_equal.
  apply store_args_non_dict; [|done|].
  - unfold ensure_args. rewrite Hargs. by destruct c.
  - exists k, v. by rewrite _get_kwargs_lookup.
Qed.

Lemma parse_config_args_args_not_a_tree_example :
  (dict_get [("args", VInt 5)] "args" = Some (VInt 5)
   /\ is_dict (VInt 5) = false
   /\ is_none (VInt 5) = false
   /\ heap (world_of {[ "configs" := VList [] ]} ∅) !! 0%nat
      = Some {[ "configs" := VList [] ]}
   /\ ({[ "configs" := VList [] ]} : namespace) !! "configs" = Some (VList [])
   /\ stored "configs" (VList []) = true)
  /\ parse_config_args host1 [("args", VInt 5)] 0%nat []
       (world_of {[ "configs" := VList [] ]} ∅)
     = (Raise (TypeError "'int' object does not support item assignment"),
        world_of {[ "configs" := VList [] ]} ∅).
Proof.
  split; [by split_and!|].
  exact (proj1 (parse_config_args_args_not_a_tree host1 [("args", VInt 5)]
                  0%nat {[ "configs" := VList [] ]}
                  (world_of {[ "configs" := VList [] ]} ∅)
                  (VInt 5) (VList []) "configs"
                  eq_refl eq_refl eq_refl eq_refl eq_refl eq_refl)).
Defined.

(** ** The namespace that [parse_args_uargs] returns *)

Lemma stored_unset (k : string) (c : value) :
  stored k c = negb (unset k (Some c)).
Proof. unfold stored, unset. by rewrite negb_orb. Qed.

(** Without override tokens, and with a loaded configuration in which
    [args] is a tree, absent or [None]: the run of [parse_args_uargs]. *)
Lemma parse_args_uargs_run (h : Host) (args : loc) (ns : namespace)
  (w : world) (configs : value) (paths : list value) (config0 a : dict) :
  heap w !! args = Some ns ->
  ns !! "configs" = Some configs ->
  iterate configs = Ok paths ->
  fst (load_configs h [] paths w) = Ok config0 ->
  dict_get (ensure_args config0) "args" = Some (VDict a) ->
  NoDup (map fst a) ->
  exists (a2 : dict) (ns1 : namespace),
    parse_args_uargs h args [] w
    = (Ok (List.length (heap w),
           dict_set (ensure_args config0) "args" (VDict a2)),
       set_heap (fun hp => (hp ++ [ns1])%list) w)
    /\ (forall k,
          dict_get a2 k
          = match ns !! k with
            | Some v => if stored k v then Some v else dict_get a k
            | None => dict_get a k
            end)
    /\ (forall k,
          ns1 !! k
          = if unset k (ns !! k)
            then match dict_get a k with
                 | Some v => Some v
                 | None => ns !! k
                 end
            else ns !! k).
Proof.
  intros Hargs Hconfigs Hiter Hload Ha Hnd.
  set (n := List.length (heap w)).
  set (w1 := set_heap (fun hp => (hp ++ [ns])%list) w).
  assert (Hn : heap w1 !! n = Some ns) by (by apply list_lookup_middle).
  destruct (store_args_spec (_get_kwargs ns) (_get_kwargs_NoDup ns)
              (ensure_args config0) a Ha) as (a2 & Hstore & Hnd2 & Hget2).
  destruct (merge_back_spec n a2 (Hnd2 Hnd) w1 ns Hn) as (ns1 & Hback & Hget1).
  assert (Ha2 : forall k,
    dict_get a2 k
    = match ns !! k with
      | Some v => if stored k v then Some v else dict_get a k
      | None => dict_get a k
      end) by (intros k; by rewrite Hget2, _get_kwargs_lookup).
  exists a2, ns1. split_and!; [|done|].
  - unfold parse_args_uargs.
    rewrite (bind_Ok _ _ w w1 n).
    2:{ unfold deepcopy, bind, getattrs. by rewrite Hargs. }
    rewrite (bind_Ok _ _ w1 w1 configs).
    2:{ unfold getattr, bind, getattrs. by rewrite Hn, Hconfigs. }
    rewrite (bind_Ok _ _ w1 w1 paths) by (by unfold lift; rewrite Hiter).
    rewrite (bind_Ok _ _ w1 w1 config0).
    2:{ rewrite (files_only_run _ w w1 (files_only_load_configs h paths []) eq_refl).
        by rewrite Hload. }
    rewrite (bind_Ok _ _ w1 w1
               (dict_set (ensure_args config0) "args" (VDict a2), n)).
    2:{ unfold parse_config_args. cbn [apply_overrides].
        rewrite (bind_Ok _ _ w1 w1 config0) by done.
        rewrite (bind_Ok _ _ w1 w1 ns) by (by unfold getattrs; rewrite Hn).
        rewrite (bind_Ok _ _ w1 w1 (dict_set (ensure_args config0) "args" (VDict a2)))
          by (by unfold lift; rewrite Hstore).
        done. }
    cbv beta iota. rewrite dict_get_set_eq.
    rewrite (bind_Ok _ _ w1 _ tt Hback). unfold ret. f_equal.
    unfold set_heap, w1, n. simpl. f_equal.
    rewrite insert_app_r_alt by done. by rewrite Nat.sub_diag.
  - intros k. rewrite Hget1, Ha2.
    destruct (ns !! k) as [c|] eqn:Hk; [|by destruct (dict_get a k)].
    rewrite stored_unset. destruct (unset k (Some c)); [|done].
    by destruct (dict_get a k).
Qed.

(** The merge of [config["args"]] onto the arguments, attribute by
    attribute: the value of the command line stays unless it is unset (the
    attribute is missing or [None], or it is a log directory field holding
    the empty text); an unset attribute takes the value the configuration
    declares, if it declares one, so that keys of [config["args"]] the
    namespace did not have become attributes. *)
Theorem command_line_wins_unless_unset (h : Host) (args : loc) (ns : namespace)
  (w : world) (configs : value) (paths : list value) (config0 a : dict) :
  heap w !! args = Some ns ->
  ns !! "configs" = Some configs ->
  iterate configs = Ok paths ->
  fst (load_configs h [] paths w) = Ok config0 ->
  dict_get (ensure_args config0) "args" = Some (VDict a) ->
  NoDup (map fst a) ->
  exists (config : dict) (ns1 : namespace),
    parse_args_uargs h args [] w
    = (Ok (List.length (heap w), config),
       set_heap (fun hp => (hp ++ [ns1])%list) w)
    /\ forall k,
         ns1 !! k
         = if unset k (ns !! k)
           then match dict_get a k with
                | Some v => Some v
                | None => ns !! k
                end
           else ns !! k.
Proof.
  intros Hargs Hconfigs Hiter Hload Ha Hnd.
  destruct (parse_args_uargs_run h args ns w configs paths config0 a)
    as (a2 & ns1 & Hrun & _ & Hget); try done.
  by eexists _, ns1.
Qed.

(** Without configuration files and without tokens the returned namespace
    is a copy that holds the attributes of the original, and the returned
    configuration is the single entry [args], which binds the stored
    attributes and nothing else. *)
Theorem parse_args_uargs_without_configs (h : Host) (args : loc)
  (ns : namespace) (w : world) (configs : value) :
  heap w !! args = Some ns ->
  ns !! "configs" = Some configs ->
  iterate configs = Ok [] ->
  exists a2 : dict,
    parse_args_uargs h args [] w
    = (Ok (List.length (heap w), [("args", VDict a2)]),
       set_heap (fun hp => (hp ++ [ns])%list) w)
    /\ forall k,
         dict_get a2 k
         = match ns !! k with
           | Some v => if stored k v then Some v else None
           | None => None
           end.
Proof.
  intros Hargs Hconfigs Hiter.
  destruct (parse_args_uargs_run h args ns w configs [] [] [])
    as (a2 & ns1 & Hrun & Hget2 & Hget1); try done; [apply NoDup_nil_2|].
  assert (ns1 = ns) as ->.
  { apply map_eq. intros k. rewrite Hget1. by destruct (unset k (ns !! k)). }
  exists a2. split; [exact Hrun|]. intros k. rewrite Hget2.
  by destruct (ns !! k).
Qed.



Lemma command_line_wins_unless_unset_example :
  (heap world_seed !! 0%nat = Some args_seed
   /\ args_seed !! "configs" = Some (VList [VStr "exp/seed.json"])
   /\ iterate (VList [VStr "exp/seed.json"]) = Ok [VStr "exp/seed.json"]
   /\ fst (load_configs host2 [] [VStr "exp/seed.json"] world_seed)
      = Ok config_seed
   /\ dict_get (ensure_args config_seed) "args"
      = Some (VDict [("seed", VInt 1); ("epochs", VInt 10)])
   /\ NoDup (map fst [("seed", VInt 1); ("epochs", VInt 10)]))
  /\ exists (config : dict) (ns1 : namespace),
       parse_args_uargs host2 0%nat [] world_seed
       = (Ok (1%nat, config),
          set_heap (fun hp => (hp ++ [ns1])%list) world_seed)
       /\ ns1 !! "seed" = Some (VInt 7)
       /\ ns1 !! "epochs" = Some (VInt 10)
       /\ ns1 !! "resume" = Some VNone.
Proof.
  assert (Hnd : NoDup (map fst [("seed", VInt 1); ("epochs", VInt 10)]))
    by (apply (bool_decide_unpack _); vm_compute; exact I).
  split; [split_and!; try reflexivity; exact Hnd|].
  destruct (command_line_wins_unless_unset host2 0%nat args_seed world_seed
              (VList [VStr "exp/seed.json"]) [VStr "exp/seed.json"]
              config_seed [("seed", VInt 1); ("epochs", VInt 10)]
              eq_refl eq_refl eq_refl eq_refl eq_refl Hnd)
    as (config & ns1 & Hrun & Hget).
  exists config, ns1. split_and!.
  - exact Hrun.
  - exact (Hget "seed").
  - exact (Hget "epochs").
  - exact (Hget "resume").
Defined.

Lemma parse_args_uargs_without_configs_example :
  (heap (world_of args_bare ∅) !! 0%nat = Some args_bare
   /\ args_bare !! "configs" = Some (VList [])
   /\ iterate (VList []) = Ok [])
  /\ exists a2 : dict,
       parse_args_uargs host1 0%nat [] (world_of args_bare ∅)
       = (Ok (1%nat, [("args", VDict a2)]),
          World [args_bare; args_bare] ∅ [] [])
       /\ dict_get a2 "configs" = Some (VList [])
       /\ dict_get a2 "seed" = Some (VInt 7)
       /\ dict_get a2 "resume" = None.
Proof.
  split; [by split_and!|].
  destruct (parse_args_uargs_without_configs host1 0%nat args_bare
              (world_of args_bare ∅) (VList []) eq_refl eq_refl eq_refl)
    as (a2 & Hrun & Hget).
  exists a2. split_and!.
  - exact Hrun.
  - exact (Hget "configs").
  - exact (Hget "seed").
  - exact (Hget "resume").
Defined.


(** Where a regular file stands on the way, or is followed by a slash, the
    exception of [open] is a [NotADirectoryError]. *)
Lemma open_read_through_file :
  open_read "exp/missing.txt" (world_of ∅ {[ ["exp"] := File "x" ]})
  = (Raise (NotADirectoryError "[Errno 20] Not a directory: 'exp/missing.txt'"),
     world_of ∅ {[ ["exp"] := File "x" ]})
  /\ open_read "exp/config.yml/" world_logdir
     = (Raise (NotADirectoryError "[Errno 20] Not a directory: 'exp/config.yml/'"),
        world_logdir).
Proof. split; reflexivity. Qed.

(** ** [_decode_dict] *)

(** What [_decode_dict] returns has the keys of its argument in the same
    order and no value of type [bytes]; the values that were not [bytes],
    trees that hold [bytes] among them, are the ones of the argument; and a
    second pass changes nothing. *)
Theorem _decode_dict_result (h : Host) (dictionary : dict) :
  forall d',
    _decode_dict h dictionary = Ok d' ->
    map fst d' = map fst dictionary
    /\ Forall (fun kv => is_bytes (snd kv) = false) d'
    /\ (forall k v, dict_get dictionary k = Some v -> is_bytes v = false ->
                    dict_get d' k = Some v)
    /\ _decode_dict h d' = Ok d'.
Proof.
  induction dictionary as [|[k0 v0] d IH]; intros d'.
  - intros [= <-]. by split_and!.
  - cbn [_decode_dict].
    destruct (match v0 with
              | VBytes b => match decode_utf8 h b with
                            | Ok s0 => Ok (VStr s0)
                            | Raise e => Raise e
                            end
              | _ => Ok v0
              end) as [v'|e] eqn:Ev; [|done].
    destruct (_decode_dict h d) as [rest'|e] eqn:Er; [|done].
    intros [= <-]. destruct (IH rest' eq_refl) as (Hkeys & Hnb & Hkeep & Hagain).
    assert (Hv' : is_bytes v' = false).
    { destruct v0; try (by injection Ev as <-).
      destruct (decode_utf8 h b); [by injection Ev as <- | done]. }
    split_and!.
    + simpl. by rewrite Hkeys.
    + by constructor.
    + intros k v. cbn [dict_get]. destruct (String.eqb k0 k); [|apply Hkeep].
      intros [= ->] Hv. destruct v; try done; by injection Ev as <-.
    + cbn [_decode_dict]. rewrite Hagain. by destruct v'.
Qed.

Lemma _decode_dict_result_example :
  _decode_dict host1
    [("branch", VStr "master"); ("local_commit", VBytes "3f2a9c1");
     ("nested", VDict [("raw", VBytes "x")])]
  = Ok [("branch", VStr "master"); ("local_commit", VStr "3f2a9c1");
        ("nested", VDict [("raw", VBytes "x")])]
  /\ map fst [("branch", VStr "master"); ("local_commit", VStr "3f2a9c1");
              ("nested", VDict [("raw", VBytes "x")])]
     = ["branch"; "local_commit"; "nested"]
  /\ _decode_dict host1
       [("branch", VStr "master"); ("local_commit", VStr "3f2a9c1");
        ("nested", VDict [("raw", VBytes "x")])]
     = Ok [("branch", VStr "master"); ("local_commit", VStr "3f2a9c1");
           ("nested", VDict [("raw", VBytes "x")])].
Proof.
  split; [reflexivity|].
  destruct (_decode_dict_result host1
              [("branch", VStr "master"); ("local_commit", VBytes "3f2a9c1");
               ("nested", VDict [("raw", VBytes "x")])] _ eq_refl)
    as (Hkeys & _ & _ & Hagain).
  split; [exact Hkeys | exact Hagain].
Defined.

(** A dictionary without [bytes] among its values is returned as it is. *)
Lemma _decode_dict_no_bytes (h : Host) (d : dict) :
  Forall (fun kv => is_bytes (snd kv) = false) d -> _decode_dict h d = Ok d.
Proof.
  induction 1 as [|[k v] d Hv _ IH]; [done|].
  cbn [_decode_dict]. rewrite IH. by destruct v.
Qed.

(** ** The [git] entry of the snapshot *)

Lemma base_environment_no_bytes (h : Host) :
  Forall (fun kv => is_bytes (snd kv) = false) (base_environment h).
Proof.
  unfold base_environment.
  destruct (uname h) as [[[[sysname nodename] release] version] machine].
  by repeat constructor.
Qed.

Lemma base_environment_git (h : Host) (g : value) :
  dict_set (base_environment h) "git" g
  = (base_environment h ++ [("git", g)])%list.
Proof.
  unfold base_environment.
  by destruct (uname h) as [[[[sysname nodename] release] version] machine].
Qed.

(** The function, with the dictionary of lines 70-82 and the commands
    named. *)
Lemma get_environment_vars_unfold (h : Host) :
  get_environment_vars h
  = bind
      (try_except
         (do out <- lift (check_output h git_branch_cmd);
          do git_branch <- lift (decode_utf8 h (strip_space out));
          do git_local_commit <- lift (check_output h git_commit_cmd);
          do git_origin_commit <- lift (check_output h (git_origin_cmd git_branch));
          do git' <-
            lift (_decode_dict h
                    [ ("branch", VStr git_branch);
                      ("local_commit", VBytes git_local_commit);
                      ("origin_commit", VBytes git_origin_commit) ]);
          ret (dict_set (base_environment h) "git" (VDict git')))
         "CalledProcessError"
         (ret (base_environment h)))
      (fun result => lift (_decode_dict h result)).
Proof.
  unfold get_environment_vars, base_environment.
  by destruct (uname h) as [[[[sysname nodename] release] version] machine].
Qed.

(** The [git] entry is all or nothing: when any of the three commands exits
    with a non-zero status, the snapshot is returned and holds the eleven
    fields of the host and no [git] entry, also when the branch and the
    local commit were obtained. *)
Theorem git_entry_all_or_nothing (h : Host) (w : world) :
  git_exits_nonzero h ->
  get_environment_vars h w = (Ok (base_environment h), w).
Proof.
  intros (e & Hclass & Hfail). rewrite get_environment_vars_unfold.
  rewrite (bind_Ok _ _ w w (base_environment h)).
  { unfold lift. by rewrite (_decode_dict_no_bytes _ _ (base_environment_no_bytes h)). }
  unfold try_except.
  match goal with
  | |- (let (_, _) := ?body w in _) = _ =>
      assert (Hbody : body w = (Raise e, w))
  end.
  { destruct Hfail as [H1 | (o1 & b & H1 & Hb & Hfail)].
    - apply bind_Raise. unfold lift. by rewrite H1.
    - rewrite (bind_Ok _ _ w w o1) by (by unfold lift; rewrite H1).
      rewrite (bind_Ok _ _ w w b) by (by unfold lift; rewrite Hb).
      destruct Hfail as [H2 | (o2 & H2 & H3)].
      + apply bind_Raise. unfold lift. by rewrite H2.
      + rewrite (bind_Ok _ _ w w o2) by (by unfold lift; rewrite H2).
        apply bind_Raise. unfold lift. by rewrite H3. }
  by rewrite Hbody, Hclass.
Qed.

Lemma git_entry_all_or_nothing_example :
  git_exits_nonzero (sample_host [] git_no_remote)
  /\ get_environment_vars (sample_host [] git_no_remote) (world_of ∅ ∅)
     = (Ok sample_environment, world_of ∅ ∅).
Proof.
  assert (H : git_exits_nonzero (sample_host [] git_no_remote)).
  { exists (CalledProcessError "Command returned non-zero exit status 128.").
    split; [reflexivity|]. right.
    exists ("master" ++ newline), "master". split_and!; [reflexivity..|].
    right. exists ("3f2a9c1" ++ newline). by split. }
  split; [exact H|].
  exact (git_entry_all_or_nothing (sample_host [] git_no_remote) (world_of ∅ ∅) H).
Defined.

(** In a checkout, when the three commands answer and their outputs decode,
    the snapshot ends with the entry [git]: the branch is the first output
    without the white space around it, and the two commits are the outputs
    as they are, final newline included. *)
Theorem git_entry_in_checkout (h : Host) (w : world)
  (o1 o2 o3 branch local origin : string) :
  check_output h git_branch_cmd = Ok o1 ->
  decode_utf8 h (strip_space o1) = Ok branch ->
  check_output h git_commit_cmd = Ok o2 ->
  check_output h (git_origin_cmd branch) = Ok o3 ->
  decode_utf8 h o2 = Ok local ->
  decode_utf8 h o3 = Ok origin ->
  get_environment_vars h w
  = (Ok (base_environment h
         ++ [("git", VDict [ ("branch", VStr branch);
                             ("local_commit", VStr local);
                             ("origin_commit", VStr origin) ])])%list, w).
Proof.
  intros H1 Hb H2 H3 Hl Ho. rewrite get_environment_vars_unfold.
  rewrite (bind_Ok _ _ w w
             (base_environment h
              ++ [("git", VDict [ ("branch", VStr branch);
                                  ("local_commit", VStr local);
                                  ("origin_commit", VStr origin) ])])%list).
  { unfold lift. rewrite _decode_dict_no_bytes; [done|].
    apply Forall_app. split; [apply base_environment_no_bytes|].
    by repeat constructor. }
  unfold try_except.
  rewrite (bind_Ok _ _ w w o1) by (by unfold lift; rewrite H1).
  rewrite (bind_Ok _ _ w w branch) by (by unfold lift; rewrite Hb).
  rewrite (bind_Ok _ _ w w o2) by (by unfold lift; rewrite H2).
  rewrite (bind_Ok _ _ w w o3) by (by unfold lift; rewrite H3).
  rewrite (bind_Ok _ _ w w [ ("branch", VStr branch);
                             ("local_commit", VStr local);
                             ("origin_commit", VStr origin) ]).
  - unfold ret. by rewrite base_environment_git.
  - unfold lift. cbn [_decode_dict]. by rewrite Hl, Ho.
Qed.

Lemma git_entry_in_checkout_example :
  (check_output (sample_host [] git_repo) git_branch_cmd = Ok ("master" ++ newline)
   /\ decode_utf8 (sample_host [] git_repo) (strip_space ("master" ++ newline))
      = Ok "master"
   /\ check_output (sample_host [] git_repo) git_commit_cmd
      = Ok ("3f2a9c1" ++ newline)
   /\ check_output (sample_host [] git_repo) (git_origin_cmd "master")
      = Ok ("77b0e45" ++ newline)
   /\ decode_utf8 (sample_host [] git_repo) ("3f2a9c1" ++ newline)
      = Ok ("3f2a9c1" ++ newline)
   /\ decode_utf8 (sample_host [] git_repo) ("77b0e45" ++ newline)
      = Ok ("77b0e45" ++ newline))
  /\ get_environment_vars (sample_host [] git_repo) (world_of ∅ ∅)
     = (Ok (sample_environment
            ++ [("git", VDict [ ("branch", VStr "master");
                                ("local_commit", VStr ("3f2a9c1" ++ newline));
                                ("origin_commit", VStr ("77b0e45" ++ newline)) ])])%list,
        world_of ∅ ∅).
Proof.
  split; [by split_and!|].
  exact (git_entry_in_checkout (sample_host [] git_repo) (world_of ∅ ∅)
           ("master" ++ newline) ("3f2a9c1" ++ newline) ("77b0e45" ++ newline)
           "master" ("3f2a9c1" ++ newline) ("77b0e45" ++ newline)
           eq_refl eq_refl eq_refl eq_refl eq_refl eq_refl).
Defined.

(** ** The shape of the snapshot *)

(** What the [try] statement leaves: the dictionary of the host, with or
    without a [git] entry of three texts, or an exception that is not a
    [CalledProcessError]. *)
Lemma git_block_outcome (h : Host) (w w' : world) (r : result dict) :
  git_block h w = (r, w') ->
  w' = w
  /\ match r with
     | Ok result =>
         result = base_environment h
         \/ exists branch local origin,
              result = (base_environment h
                        ++ [("git", VDict (git_fields branch local origin))])%list
     | Raise e => String.eqb (exn_class e) "CalledProcessError" = false
     end.
Proof.
  unfold git_block, try_except.
  match goal with
  | |- (let (_, _) := ?b w in _) = _ -> _ => destruct (b w) as [rb wb] eqn:Hbody
  end.
  assert (Hw : wb = w /\ forall r0, rb = Ok r0 ->
    exists branch local origin,
      r0 = (base_environment h
            ++ [("git", VDict (git_fields branch local origin))])%list).
  { revert Hbody. unfold bind, lift, ret.
    destruct (check_output h git_branch_cmd) as [o1|e1]; [|by intros [= <- <-]].
    destruct (decode_utf8 h (strip_space o1)) as [b|e2]; [|by intros [= <- <-]].
    destruct (check_output h git_commit_cmd) as [o2|e3]; [|by intros [= <- <-]].
    destruct (check_output h (git_origin_cmd b)) as [o3|e4]; [|by intros [= <- <-]].
    cbn [_decode_dict].
    destruct (decode_utf8 h o2) as [l|e5]; [|by intros [= <- <-]].
    destruct (decode_utf8 h o3) as [o|e6]; [|by intros [= <- <-]].
    intros [= <- <-]. split; [done|]. intros r0 [= <-].
    exists b, l, o. apply base_environment_git. }
  destruct Hw as [-> Hshape]. destruct rb as [r0|e].
  - intros [= <- <-]. split; [done|]. right. by apply Hshape.
  - destruct (String.eqb (exn_class e) "CalledProcessError") eqn:E.
    + unfold ret. intros [= <- <-]. split; [done|]. by left.
    + by intros [= <- <-].
Qed.

Lemma get_environment_vars_git_block (h : Host) :
  get_environment_vars h
  = bind (git_block h) (fun result => lift (_decode_dict h result)).
Proof. apply get_environment_vars_unfold. Qed.

(** A snapshot that is returned is the eleven fields of the host in their
    order, followed or not by one entry [git] that holds the three fields
    [branch], [local_commit] and [origin_commit], each a text; the world is
    the one before the call. *)
Theorem snapshot_shape (h : Host) (w w' : world) (env : dict) :
  get_environment_vars h w = (Ok env, w') ->
  w' = w
  /\ (env = base_environment h
      \/ exists branch local origin,
           env = (base_environment h
                  ++ [("git", VDict (git_fields branch local origin))])%list).
Proof.
  rewrite get_environment_vars_git_block. intros Hrun.
  apply bind_Ok_inv in Hrun as (result & w1 & Hblock & Hdecode).
  apply git_block_outcome in Hblock as [-> Hshape].
  assert (Hnb : Forall (fun kv => is_bytes (snd kv) = false) result).
  { destruct Hshape as [-> | (b & l & o & ->)].
    - apply base_environment_no_bytes.
    - apply Forall_app. split; [apply base_environment_no_bytes|].
      by repeat constructor. }
  unfold lift in Hdecode. rewrite (_decode_dict_no_bytes h _ Hnb) in Hdecode.
  by injection Hdecode as <- <-.
Qed.

Lemma snapshot_shape_example :
  get_environment_vars (sample_host [] git_repo) (world_of ∅ ∅)
  = (Ok (sample_environment
         ++ [("git", VDict (git_fields "master" ("3f2a9c1" ++ newline)
                              ("77b0e45" ++ newline)))])%list,
     world_of ∅ ∅)
  /\ (world_of ∅ ∅ = world_of ∅ ∅
      /\ ((sample_environment
           ++ [("git", VDict (git_fields "master" ("3f2a9c1" ++ newline)
                                ("77b0e45" ++ newline)))])%list
          = base_environment (sample_host [] git_repo)
          \/ exists branch local origin,
               (sample_environment
                ++ [("git", VDict (git_fields "master" ("3f2a9c1" ++ newline)
                                     ("77b0e45" ++ newline)))])%list
               = (base_environment (sample_host [] git_repo)
                  ++ [("git", VDict (git_fields branch local origin))])%list)).
Proof.
  assert (Hrun :
    get_environment_vars (sample_host [] git_repo) (world_of ∅ ∅)
    = (Ok (sample_environment
           ++ [("git", VDict (git_fields "master" ("3f2a9c1" ++ newline)
                                ("77b0e45" ++ newline)))])%list,
       world_of ∅ ∅)) by (vm_compute; reflexivity).
  split; [exact Hrun|].
  exact (snapshot_shape (sample_host [] git_repo) _ _ _ Hrun).
Defined.

(** Whatever the host, [get_environment_vars] does not raise a
    [CalledProcessError]: the non-zero exit of a [git] command never
    reaches the caller. *)
Theorem snapshot_never_raises_CalledProcessError (h : Host) (w w' : world)
  (e : exn) :
  get_environment_vars h w = (Raise e, w') ->
  w' = w /\ exn_class e <> "CalledProcessError".
Proof.
  rewrite get_environment_vars_git_block. unfold bind.
  destruct (git_block h w) as [[result|e0] w1] eqn:Hblock;
    apply git_block_outcome in Hblock as [-> Hshape].
  - assert (Hnb : Forall (fun kv => is_bytes (snd kv) = false) result).
    { destruct Hshape as [-> | (b & l & o & ->)].
      - apply base_environment_no_bytes.
      - apply Forall_app. split; [apply base_environment_no_bytes|].
        by repeat constructor. }
    unfold lift. by rewrite (_decode_dict_no_bytes h _ Hnb).
  - intros [= <- <-]. split; [done|]. by apply String.eqb_neq.
Qed.

Lemma snapshot_never_raises_CalledProcessError_example :
  get_environment_vars (sample_host [] git_missing) (world_of ∅ ∅)
  = (Raise (FileNotFoundError "[Errno 2] No such file or directory: 'git': 'git'"),
     world_of ∅ ∅)
  /\ (world_of ∅ ∅ = world_of ∅ ∅
      /\ "FileNotFoundError" <> "CalledProcessError").
Proof.
  assert (Hrun :
    get_environment_vars (sample_host [] git_missing) (world_of ∅ ∅)
    = (Raise (FileNotFoundError
                "[Errno 2] No such file or directory: 'git': 'git'"),
       world_of ∅ ∅)) by (vm_compute; reflexivity).
  split; [exact Hrun|].
  exact (snapshot_never_raises_CalledProcessError
           (sample_host [] git_missing) _ _ _ Hrun).
Defined.

(** ** What [dump_config] leaves in the world *)

(** [mkdir] overwrites nothing. *)
Lemma mkdir_from_keeps_nodes (todo : path) :
  forall fs seen fs1,
    mkdir_from fs seen todo = Ok fs1 ->
    forall q n, fs !! q = Some n -> fs1 !! q = Some n.
Proof.
  induction todo as [|c rest IH]; intros fs seen fs1; simpl.
  - by intros [= <-].
  - destruct (lookup_node fs (seen ++ [c])%list) as [[|content]|] eqn:E; [|done|].
    + apply IH.
    + intros Hrun q n Hq. apply (IH _ _ _ Hrun).
      rewrite lookup_insert_ne; [done|]. intros <-.
      unfold lookup_node in E. destruct (is_root (seen ++ [c])%list); [done|].
      congruence.
Qed.






Lemma mkdir_from_app (a : path) :
  forall fs seen fs' b,
    mkdir_from fs seen a = Ok fs' ->
    mkdir_from fs seen (a ++ b)%list = mkdir_from fs' (seen ++ a)%list b.
Proof.
  induction a as [|c a IH]; intros fs seen fs' b.
  - simpl. intros [= <-]. by rewrite app_nil_r.
  - simpl.
    destruct (lookup_node fs (seen ++ [c])%list) as [[|content]|] eqn:E.
    + intros Hrun. rewrite (IH _ _ _ b Hrun). by rewrite <- app_assoc.
    + by destruct a.
    + intros Hrun. rewrite (IH _ _ _ b Hrun). by rewrite <- app_assoc.
Qed.

(** When [logdir/configs] exists and is a regular file, [dump_config]
    raises a [FileExistsError] and writes nothing. *)
Theorem dump_config_blocked_by_file (h : Host) (w : world)
  (experiment_config : dict) (logdir content : string)
  (configs_path : option (list value)) (fs0 : gmap path node) :
  mkdir_from (files w) [] (Path logdir) = Ok fs0 ->
  files w !! (Path logdir ++ ["configs"])%list = Some (File content) ->
  exists e,
    dump_config h experiment_config logdir configs_path w = (Raise e, w)
    /\ exn_class e = "FileExistsError".
Proof.
  intros Hparents Hfile. eexists. split.
  - unfold dump_config.
    change (joinpath (Path logdir) "configs")
      with (Path logdir ++ ["configs"])%list.
    apply bind_Raise. unfold mkdir.
    rewrite (mkdir_from_app _ _ _ _ ["configs"] Hparents). simpl.
    assert (Hnode : lookup_node fs0 (Path logdir ++ ["configs"])%list
                    = Some (File content)).
    { unfold lookup_node.
      assert (is_root (Path logdir ++ ["configs"])%list = false) as ->.
      { unfold is_root. apply orb_false_iff.
        split; apply bool_decide_eq_false; [by destruct (Path logdir)|].
        intros H. by destruct (Path logdir) as [|x [|y l]]. }
      by apply (mkdir_from_keeps_nodes _ _ _ _ Hparents). }
    by rewrite Hnode.
  - reflexivity.
Qed.

Lemma dump_config_blocked_by_file_example :
  (mkdir_from (files world_blocked) [] (Path "D") = Ok (files world_blocked)
   /\ files world_blocked !! (Path "D" ++ ["configs"])%list
      = Some (File "not a directory"))
  /\ exists e,
       dump_config host1 config_a "D" None world_blocked = (Raise e, world_blocked)
       /\ exn_class e = "FileExistsError".
Proof.
  assert (H1 : mkdir_from (files world_blocked) [] (Path "D")
               = Ok (files world_blocked)) by (vm_compute; reflexivity).
  split; [by split|].
  exact (dump_config_blocked_by_file host1 world_blocked config_a "D"
           "not a directory" None _ H1 eq_refl).
Defined.




(** ** Typed tokens, and tokens after the configuration files *)

(** The run of a token that is evaluated and returns. *)
Lemma typed_token_binds_eval_result_aux (h : Host) (args : loc)
  (unknown_args : list string) (config config' : dict)
  (arg name value content tag : string) (w w1 w' : world) (out : outcome) :
  unpack2 (split_on "="%char arg) = Ok (name, value) ->
  rsplit1 ":"%char value = Some (content, tag) ->
  tag <> "str" ->
  py_eval h (token_scope config args unknown_args arg name value content tag)
    (format_call tag content) w = (out, w1) ->
  apply_override h args unknown_args config arg w = (Ok config', w') ->
  exists v,
    out_result out = Ok v
    /\ (contains "/"%char (strip "/"%char (lstrip "-"%char name)) = true ->
        get_path config'
          (default (split_on "/"%char (strip "/"%char (lstrip "-"%char name)))
             (out_arg_names out))
        = Some v
        /\ heap w' = heap w1)
    /\ (contains "/"%char (strip "/"%char (lstrip "-"%char name)) = false ->
        config' = out_config out
        /\ exists ns,
             heap w1 !! args = Some ns
             /\ heap w' !! args
                = Some (<[strip "/"%char (lstrip "-"%char name) := v]> ns)).
Proof.
  intros Hsplit Hvalue Htag Heval.
  rewrite (apply_override_evaluated h args unknown_args config arg name value
             content tag w w1 out Hsplit Hvalue Htag Heval).
  destruct (out_result out) as [v|e]; [|done].
  destruct (contains _ _); intros Hrun; exists v; (split; [done|]).
  - split; [intros _|done].
    assert (Hnames :
      match out_arg_names out with
      | Some l => l
      | None => split_on "/"%char (strip "/"%char (lstrip "-"%char name))
      end
      = default (split_on "/"%char (strip "/"%char (lstrip "-"%char name)))
          (out_arg_names out)) by (by destruct (out_arg_names out)).
    rewrite Hnames in Hrun.
    destruct (set_path _ _ _) as [c|e] eqn:E; [|done].
    injection Hrun as <- <-. split; [|done].
    apply (set_path_get_path _ v) with (config := out_config out); [|done].
    intros Hnil. by rewrite Hnil in E.
  - revert Hrun. unfold setattr, bind, getattrs, ret. simpl.
    destruct (heap w1 !! args) as [ns|] eqn:Hargs; [|done].
    intros [= <- <-]. split; [done|intros _]. split; [done|].
    exists ns. split; [done|]. simpl.
    apply list_lookup_insert_eq. by apply lookup_lt_Some in Hargs.
Qed.

(** For a type other than [str], what the token binds is the value [eval]
    returns for [tag(content)], whatever the evaluated code does besides.
    With a slash in the name the value is bound in the tree, at the end of
    the path that the list [arg_names] spells after the evaluation, and the
    module touches no namespace object.  Without a slash the value is the
    attribute of that name on the namespace, and the configuration is the
    one the evaluation left. *)
Theorem typed_token_binds_eval_result (h : Host) (args : loc)
  (unknown_args : list string) (config config' : dict)
  (arg name value content tag : string) (w w1 w' : world) (out : outcome) :
  unpack2 (split_on "="%char arg) = Ok (name, value) ->
  rsplit1 ":"%char value = Some (content, tag) ->
  tag <> "str" ->
  py_eval h (token_scope config args unknown_args arg name value content tag)
    (format_call tag content) w = (out, w1) ->
  apply_override h args unknown_args config arg w = (Ok config', w') ->
  exists v,
    out_result out = Ok v
    /\ (contains "/"%char (strip "/"%char (lstrip "-"%char name)) = true ->
        get_path config'
          (default (split_on "/"%char (strip "/"%char (lstrip "-"%char name)))
             (out_arg_names out))
        = Some v
        /\ heap w' = heap w1)
    /\ (contains "/"%char (strip "/"%char (lstrip "-"%char name)) = false ->
        config' = out_config out
        /\ exists ns,
             heap w1 !! args = Some ns
             /\ heap w' !! args
                = Some (<[strip "/"%char (lstrip "-"%char name) := v]> ns)).
Proof.
  intros Hsplit Hvalue Htag Heval Hrun.
  exact (typed_token_binds_eval_result_aux h args unknown_args config config'
           arg name value content tag w w1 w' out Hsplit Hvalue Htag Heval Hrun).
Qed.

Lemma typed_token_binds_eval_result_example :
  (unpack2 (split_on "="%char "--seed=42:int") = Ok ("--seed", "42:int")
   /\ rsplit1 ":"%char "42:int" = Some ("42", "int")
   /\ "int" <> "str"
   /\ py_eval host1
        (token_scope [] 0%nat ["--seed=42:int"] "--seed=42:int" "--seed"
           "42:int" "42" "int")
        (format_call "int" "42") (world_of ∅ ∅)
      = (unchanged
           (token_scope [] 0%nat ["--seed=42:int"] "--seed=42:int" "--seed"
              "42:int" "42" "int") (Ok (VInt 42)),
         world_of ∅ ∅)
   /\ apply_override host1 0%nat ["--seed=42:int"] [] "--seed=42:int"
        (world_of ∅ ∅)
      = (Ok [], World [ {[ "seed" := VInt 42 ]} ] ∅ ["int(42)"] []))
  /\ exists v ns,
       v = VInt 42
       /\ heap (world_of ∅ ∅) !! 0%nat = Some ns
       /\ [ ({[ "seed" := VInt 42 ]} : namespace) ] !! 0%nat
          = Some (<["seed" := v]> ns).
Proof.
  assert (Hne : "int" <> "str") by done.
  split; [by split_and!|].
  destruct (typed_token_binds_eval_result host1 0%nat ["--seed=42:int"] [] []
              "--seed=42:int" "--seed" "42:int" "42" "int" (world_of ∅ ∅)
              (world_of ∅ ∅)
              (World [ {[ "seed" := VInt 42 ]} ] ∅ ["int(42)"] []) _
              eq_refl eq_refl Hne eq_refl eq_refl)
    as (v & Hv & _ & Hattr).
  destruct (Hattr eq_refl) as (_ & ns & Hns & Hset).
  injection Hv as <-. by exists (VInt 42), ns.
Defined.





